(** * The retrieval-augmented answer pipeline of [services/rag_service.py]

    A shallow embedding of [RAGService.add_document] and [RAGService.query],
    followed by the rest of [RAGService], the speech services and the
    endpoints of [main.py] that call them.
    Python [str] values are kept as their UTF-8 encoding (one [ascii] per
    byte) and decoded to code points where Python works on code points;
    dictionaries are [gmap]s; Python floats are IEEE binary64 ([PrimFloat]).  The external collaborators (text splitter, embedding
    client, chat model, vector collection, [uuid.uuid4]) are not part of
    the repository: their observable behaviour is taken as a record of
    oracles, and every call to them is written to a log. *)

From Stdlib Require Import ZArith String Ascii List PrimFloat SpecFloat FloatOps.
From stdpp Require Import gmap strings list pretty.

Open Scope string_scope.
Open Scope list_scope.
Open Scope nat_scope.

(** ** Python string operations used by the service *)

Module PyStr.

(** *** Code points

    [str.lower] and [str.strip] work on code points, so a string is decoded
    before they are applied and encoded again afterwards.  The
    decoder accepts every sequence that encodes a code point in its shortest
    form (the surrogates too, which a Python [str] may hold); a byte [b]
    that starts no such sequence is kept as the value [0x110000 + b], which
    no table below mentions and which is encoded as [b] again. *)

Definition is_continuation (n : N) : bool := ((0x80 <=? n) && (n <? 0xC0))%N.

Fixpoint utf8_decode (s : string) : list N :=
  match s with
  | EmptyString => []
  | String b0 s1 =>
      let n0 := N_of_ascii b0 in
      let stray (_ : unit) := (0x110000 + n0)%N :: utf8_decode s1 in
      if (n0 <? 0x80)%N then n0 :: utf8_decode s1
      else
        match s1 with
        | EmptyString => stray tt
        | String b1 s2 =>
            let n1 := N_of_ascii b1 in
            if negb (is_continuation n1) then stray tt
            else if (n0 <? 0xC0)%N then stray tt
            else if (n0 <? 0xE0)%N then
              let c := ((n0 - 0xC0) * 0x40 + (n1 - 0x80))%N in
              if (0x80 <=? c)%N then c :: utf8_decode s2 else stray tt
            else
              match s2 with
              | EmptyString => stray tt
              | String b2 s3 =>
                  let n2 := N_of_ascii b2 in
                  if negb (is_continuation n2) then stray tt
                  else if (n0 <? 0xF0)%N then
                    let c := ((n0 - 0xE0) * 0x1000 + (n1 - 0x80) * 0x40
                              + (n2 - 0x80))%N in
                    if (0x800 <=? c)%N then c :: utf8_decode s3 else stray tt
                  else
                    match s3 with
                    | EmptyString => stray tt
                    | String b3 s4 =>
                        let n3 := N_of_ascii b3 in
                        if negb (is_continuation n3) then stray tt
                        else
                          let c := ((n0 - 0xF0) * 0x40000
                                    + (n1 - 0x80) * 0x1000
                                    + (n2 - 0x80) * 0x40 + (n3 - 0x80))%N in
                          if ((0x10000 <=? c) && (c <? 0x110000))%N
                          then c :: utf8_decode s4 else stray tt
                    end
              end
        end
  end.

Definition utf8_encode_one (c : N) : string :=
  let byte (n : N) (rest : string) := String (ascii_of_N n) rest in
  (if c <? 0x80 then byte c ""
   else if c <? 0x800 then
     byte (0xC0 + c / 0x40) (byte (0x80 + c mod 0x40) "")
   else if c <? 0x10000 then
     byte (0xE0 + c / 0x1000)
       (byte (0x80 + (c / 0x40) mod 0x40) (byte (0x80 + c mod 0x40) ""))
   else if c <? 0x110000 then
     byte (0xF0 + c / 0x40000)
       (byte (0x80 + (c / 0x1000) mod 0x40)
          (byte (0x80 + (c / 0x40) mod 0x40) (byte (0x80 + c mod 0x40) "")))
   else byte (c - 0x110000) "")%N.

Fixpoint utf8_encode (cs : list N) : string :=
  match cs with
  | [] => ""
  | c :: cs' => utf8_encode_one c +:+ utf8_encode cs'
  end.

Definition in_ranges (table : list (N * N)) (c : N) : bool :=
  existsb (λ r, (fst r <=? c) && (c <=? snd r))%N table.

Fixpoint drop_while {A} (p : A → bool) (l : list A) : list A :=
  match l with
  | [] => []
  | x :: l' => if p x then drop_while p l' else l
  end.

(** *** The character database

    The tables are those of the Unicode Character Database 14.0.0, the
    version CPython 3.11 is built with.

    [lowercase_table]: an entry [(first, last, step, target)] sends
    [first], [first + step], ... up to [last] to [target], [target + step],
    ...; a code point in no entry is its own lowercase.  U+0130 and U+03A3
    are not listed: [lower_code_points] treats them itself. *)

Definition lowercase_table : list (N * N * N * N) :=
  [
   (0x41, 0x5A, 1, 0x61); (0xC0, 0xD6, 1, 0xE0); (0xD8, 0xDE, 1, 0xF8);
   (0x100, 0x12E, 2, 0x101); (0x132, 0x136, 2, 0x133);
   (0x139, 0x147, 2, 0x13A); (0x14A, 0x176, 2, 0x14B);
   (0x178, 0x178, 1, 0xFF); (0x179, 0x17D, 2, 0x17A);
   (0x181, 0x181, 1, 0x253); (0x182, 0x184, 2, 0x183);
   (0x186, 0x186, 1, 0x254); (0x187, 0x187, 1, 0x188);
   (0x189, 0x18A, 1, 0x256); (0x18B, 0x18B, 1, 0x18C);
   (0x18E, 0x18E, 1, 0x1DD); (0x18F, 0x18F, 1, 0x259);
   (0x190, 0x190, 1, 0x25B); (0x191, 0x191, 1, 0x192);
   (0x193, 0x193, 1, 0x260); (0x194, 0x194, 1, 0x263);
   (0x196, 0x196, 1, 0x269); (0x197, 0x197, 1, 0x268);
   (0x198, 0x198, 1, 0x199); (0x19C, 0x19C, 1, 0x26F);
   (0x19D, 0x19D, 1, 0x272); (0x19F, 0x19F, 1, 0x275);
   (0x1A0, 0x1A4, 2, 0x1A1); (0x1A6, 0x1A6, 1, 0x280);
   (0x1A7, 0x1A7, 1, 0x1A8); (0x1A9, 0x1A9, 1, 0x283);
   (0x1AC, 0x1AC, 1, 0x1AD); (0x1AE, 0x1AE, 1, 0x288);
   (0x1AF, 0x1AF, 1, 0x1B0); (0x1B1, 0x1B2, 1, 0x28A);
   (0x1B3, 0x1B5, 2, 0x1B4); (0x1B7, 0x1B7, 1, 0x292);
   (0x1B8, 0x1B8, 1, 0x1B9); (0x1BC, 0x1BC, 1, 0x1BD);
   (0x1C4, 0x1C4, 1, 0x1C6); (0x1C5, 0x1C5, 1, 0x1C6);
   (0x1C7, 0x1C7, 1, 0x1C9); (0x1C8, 0x1C8, 1, 0x1C9);
   (0x1CA, 0x1CA, 1, 0x1CC); (0x1CB, 0x1DB, 2, 0x1CC);
   (0x1DE, 0x1EE, 2, 0x1DF); (0x1F1, 0x1F1, 1, 0x1F3);
   (0x1F2, 0x1F4, 2, 0x1F3); (0x1F6, 0x1F6, 1, 0x195);
   (0x1F7, 0x1F7, 1, 0x1BF); (0x1F8, 0x21E, 2, 0x1F9);
   (0x220, 0x220, 1, 0x19E); (0x222, 0x232, 2, 0x223);
   (0x23A, 0x23A, 1, 0x2C65); (0x23B, 0x23B, 1, 0x23C);
   (0x23D, 0x23D, 1, 0x19A); (0x23E, 0x23E, 1, 0x2C66);
   (0x241, 0x241, 1, 0x242); (0x243, 0x243, 1, 0x180);
   (0x244, 0x244, 1, 0x289); (0x245, 0x245, 1, 0x28C);
   (0x246, 0x24E, 2, 0x247); (0x370, 0x372, 2, 0x371);
   (0x376, 0x376, 1, 0x377); (0x37F, 0x37F, 1, 0x3F3);
   (0x386, 0x386, 1, 0x3AC); (0x388, 0x38A, 1, 0x3AD);
   (0x38C, 0x38C, 1, 0x3CC); (0x38E, 0x38F, 1, 0x3CD);
   (0x391, 0x3A1, 1, 0x3B1); (0x3A4, 0x3AB, 1, 0x3C4);
   (0x3CF, 0x3CF, 1, 0x3D7); (0x3D8, 0x3EE, 2, 0x3D9);
   (0x3F4, 0x3F4, 1, 0x3B8); (0x3F7, 0x3F7, 1, 0x3F8);
   (0x3F9, 0x3F9, 1, 0x3F2); (0x3FA, 0x3FA, 1, 0x3FB);
   (0x3FD, 0x3FF, 1, 0x37B); (0x400, 0x40F, 1, 0x450);
   (0x410, 0x42F, 1, 0x430); (0x460, 0x480, 2, 0x461);
   (0x48A, 0x4BE, 2, 0x48B); (0x4C0, 0x4C0, 1, 0x4CF);
   (0x4C1, 0x4CD, 2, 0x4C2); (0x4D0, 0x52E, 2, 0x4D1);
   (0x531, 0x556, 1, 0x561); (0x10A0, 0x10C5, 1, 0x2D00);
   (0x10C7, 0x10C7, 1, 0x2D27); (0x10CD, 0x10CD, 1, 0x2D2D);
   (0x13A0, 0x13EF, 1, 0xAB70); (0x13F0, 0x13F5, 1, 0x13F8);
   (0x1C90, 0x1CBA, 1, 0x10D0); (0x1CBD, 0x1CBF, 1, 0x10FD);
   (0x1E00, 0x1E94, 2, 0x1E01); (0x1E9E, 0x1E9E, 1, 0xDF);
   (0x1EA0, 0x1EFE, 2, 0x1EA1); (0x1F08, 0x1F0F, 1, 0x1F00);
   (0x1F18, 0x1F1D, 1, 0x1F10); (0x1F28, 0x1F2F, 1, 0x1F20);
   (0x1F38, 0x1F3F, 1, 0x1F30); (0x1F48, 0x1F4D, 1, 0x1F40);
   (0x1F59, 0x1F5F, 2, 0x1F51); (0x1F68, 0x1F6F, 1, 0x1F60);
   (0x1F88, 0x1F8F, 1, 0x1F80); (0x1F98, 0x1F9F, 1, 0x1F90);
   (0x1FA8, 0x1FAF, 1, 0x1FA0); (0x1FB8, 0x1FB9, 1, 0x1FB0);
   (0x1FBA, 0x1FBB, 1, 0x1F70); (0x1FBC, 0x1FBC, 1, 0x1FB3);
   (0x1FC8, 0x1FCB, 1, 0x1F72); (0x1FCC, 0x1FCC, 1, 0x1FC3);
   (0x1FD8, 0x1FD9, 1, 0x1FD0); (0x1FDA, 0x1FDB, 1, 0x1F76);
   (0x1FE8, 0x1FE9, 1, 0x1FE0); (0x1FEA, 0x1FEB, 1, 0x1F7A);
   (0x1FEC, 0x1FEC, 1, 0x1FE5); (0x1FF8, 0x1FF9, 1, 0x1F78);
   (0x1FFA, 0x1FFB, 1, 0x1F7C); (0x1FFC, 0x1FFC, 1, 0x1FF3);
   (0x2126, 0x2126, 1, 0x3C9); (0x212A, 0x212A, 1, 0x6B);
   (0x212B, 0x212B, 1, 0xE5); (0x2132, 0x2132, 1, 0x214E);
   (0x2160, 0x216F, 1, 0x2170); (0x2183, 0x2183, 1, 0x2184);
   (0x24B6, 0x24CF, 1, 0x24D0); (0x2C00, 0x2C2F, 1, 0x2C30);
   (0x2C60, 0x2C60, 1, 0x2C61); (0x2C62, 0x2C62, 1, 0x26B);
   (0x2C63, 0x2C63, 1, 0x1D7D); (0x2C64, 0x2C64, 1, 0x27D);
   (0x2C67, 0x2C6B, 2, 0x2C68); (0x2C6D, 0x2C6D, 1, 0x251);
   (0x2C6E, 0x2C6E, 1, 0x271); (0x2C6F, 0x2C6F, 1, 0x250);
   (0x2C70, 0x2C70, 1, 0x252); (0x2C72, 0x2C72, 1, 0x2C73);
   (0x2C75, 0x2C75, 1, 0x2C76); (0x2C7E, 0x2C7F, 1, 0x23F);
   (0x2C80, 0x2CE2, 2, 0x2C81); (0x2CEB, 0x2CED, 2, 0x2CEC);
   (0x2CF2, 0x2CF2, 1, 0x2CF3); (0xA640, 0xA66C, 2, 0xA641);
   (0xA680, 0xA69A, 2, 0xA681); (0xA722, 0xA72E, 2, 0xA723);
   (0xA732, 0xA76E, 2, 0xA733); (0xA779, 0xA77B, 2, 0xA77A);
   (0xA77D, 0xA77D, 1, 0x1D79); (0xA77E, 0xA786, 2, 0xA77F);
   (0xA78B, 0xA78B, 1, 0xA78C); (0xA78D, 0xA78D, 1, 0x265);
   (0xA790, 0xA792, 2, 0xA791); (0xA796, 0xA7A8, 2, 0xA797);
   (0xA7AA, 0xA7AA, 1, 0x266); (0xA7AB, 0xA7AB, 1, 0x25C);
   (0xA7AC, 0xA7AC, 1, 0x261); (0xA7AD, 0xA7AD, 1, 0x26C);
   (0xA7AE, 0xA7AE, 1, 0x26A); (0xA7B0, 0xA7B0, 1, 0x29E);
   (0xA7B1, 0xA7B1, 1, 0x287); (0xA7B2, 0xA7B2, 1, 0x29D);
   (0xA7B3, 0xA7B3, 1, 0xAB53); (0xA7B4, 0xA7C2, 2, 0xA7B5);
   (0xA7C4, 0xA7C4, 1, 0xA794); (0xA7C5, 0xA7C5, 1, 0x282);
   (0xA7C6, 0xA7C6, 1, 0x1D8E); (0xA7C7, 0xA7C9, 2, 0xA7C8);
   (0xA7D0, 0xA7D0, 1, 0xA7D1); (0xA7D6, 0xA7D8, 2, 0xA7D7);
   (0xA7F5, 0xA7F5, 1, 0xA7F6); (0xFF21, 0xFF3A, 1, 0xFF41);
   (0x10400, 0x10427, 1, 0x10428); (0x104B0, 0x104D3, 1, 0x104D8);
   (0x10570, 0x1057A, 1, 0x10597); (0x1057C, 0x1058A, 1, 0x105A3);
   (0x1058C, 0x10592, 1, 0x105B3); (0x10594, 0x10595, 1, 0x105BB);
   (0x10C80, 0x10CB2, 1, 0x10CC0); (0x118A0, 0x118BF, 1, 0x118C0);
   (0x16E40, 0x16E5F, 1, 0x16E60); (0x1E900, 0x1E921, 1, 0x1E922)
  ]%N.

(** [case_ignorable_table]: the code points with the property
    Case_Ignorable.  [cased_table]: those with the property Cased and
    without Case_Ignorable (the final-sigma rule asks for Cased only at a
    code point that is not Case_Ignorable).  [whitespace_table]: those for
    which [str.isspace] holds, which are the ones [str.strip] removes. *)

Definition case_ignorable_table : list (N * N) :=
  [
   (0x27, 0x27); (0x2E, 0x2E); (0x3A, 0x3A); (0x5E, 0x5E); (0x60, 0x60);
   (0xA8, 0xA8); (0xAD, 0xAD); (0xAF, 0xAF); (0xB4, 0xB4); (0xB7, 0xB8);
   (0x2B0, 0x36F); (0x374, 0x375); (0x37A, 0x37A); (0x384, 0x385);
   (0x387, 0x387); (0x483, 0x489); (0x559, 0x559); (0x55F, 0x55F);
   (0x591, 0x5BD); (0x5BF, 0x5BF); (0x5C1, 0x5C2); (0x5C4, 0x5C5);
   (0x5C7, 0x5C7); (0x5F4, 0x5F4); (0x600, 0x605); (0x610, 0x61A);
   (0x61C, 0x61C); (0x640, 0x640); (0x64B, 0x65F); (0x670, 0x670);
   (0x6D6, 0x6DD); (0x6DF, 0x6E8); (0x6EA, 0x6ED); (0x70F, 0x70F);
   (0x711, 0x711); (0x730, 0x74A); (0x7A6, 0x7B0); (0x7EB, 0x7F5);
   (0x7FA, 0x7FA); (0x7FD, 0x7FD); (0x816, 0x82D); (0x859, 0x85B);
   (0x888, 0x888); (0x890, 0x891); (0x898, 0x89F); (0x8C9, 0x902);
   (0x93A, 0x93A); (0x93C, 0x93C); (0x941, 0x948); (0x94D, 0x94D);
   (0x951, 0x957); (0x962, 0x963); (0x971, 0x971); (0x981, 0x981);
   (0x9BC, 0x9BC); (0x9C1, 0x9C4); (0x9CD, 0x9CD); (0x9E2, 0x9E3);
   (0x9FE, 0x9FE); (0xA01, 0xA02); (0xA3C, 0xA3C); (0xA41, 0xA42);
   (0xA47, 0xA48); (0xA4B, 0xA4D); (0xA51, 0xA51); (0xA70, 0xA71);
   (0xA75, 0xA75); (0xA81, 0xA82); (0xABC, 0xABC); (0xAC1, 0xAC5);
   (0xAC7, 0xAC8); (0xACD, 0xACD); (0xAE2, 0xAE3); (0xAFA, 0xAFF);
   (0xB01, 0xB01); (0xB3C, 0xB3C); (0xB3F, 0xB3F); (0xB41, 0xB44);
   (0xB4D, 0xB4D); (0xB55, 0xB56); (0xB62, 0xB63); (0xB82, 0xB82);
   (0xBC0, 0xBC0); (0xBCD, 0xBCD); (0xC00, 0xC00); (0xC04, 0xC04);
   (0xC3C, 0xC3C); (0xC3E, 0xC40); (0xC46, 0xC48); (0xC4A, 0xC4D);
   (0xC55, 0xC56); (0xC62, 0xC63); (0xC81, 0xC81); (0xCBC, 0xCBC);
   (0xCBF, 0xCBF); (0xCC6, 0xCC6); (0xCCC, 0xCCD); (0xCE2, 0xCE3);
   (0xD00, 0xD01); (0xD3B, 0xD3C); (0xD41, 0xD44); (0xD4D, 0xD4D);
   (0xD62, 0xD63); (0xD81, 0xD81); (0xDCA, 0xDCA); (0xDD2, 0xDD4);
   (0xDD6, 0xDD6); (0xE31, 0xE31); (0xE34, 0xE3A); (0xE46, 0xE4E);
   (0xEB1, 0xEB1); (0xEB4, 0xEBC); (0xEC6, 0xEC6); (0xEC8, 0xECD);
   (0xF18, 0xF19); (0xF35, 0xF35); (0xF37, 0xF37); (0xF39, 0xF39);
   (0xF71, 0xF7E); (0xF80, 0xF84); (0xF86, 0xF87); (0xF8D, 0xF97);
   (0xF99, 0xFBC); (0xFC6, 0xFC6); (0x102D, 0x1030); (0x1032, 0x1037);
   (0x1039, 0x103A); (0x103D, 0x103E); (0x1058, 0x1059); (0x105E, 0x1060);
   (0x1071, 0x1074); (0x1082, 0x1082); (0x1085, 0x1086); (0x108D, 0x108D);
   (0x109D, 0x109D); (0x10FC, 0x10FC); (0x135D, 0x135F); (0x1712, 0x1714);
   (0x1732, 0x1733); (0x1752, 0x1753); (0x1772, 0x1773); (0x17B4, 0x17B5);
   (0x17B7, 0x17BD); (0x17C6, 0x17C6); (0x17C9, 0x17D3); (0x17D7, 0x17D7);
   (0x17DD, 0x17DD); (0x180B, 0x180F); (0x1843, 0x1843); (0x1885, 0x1886);
   (0x18A9, 0x18A9); (0x1920, 0x1922); (0x1927, 0x1928); (0x1932, 0x1932);
   (0x1939, 0x193B); (0x1A17, 0x1A18); (0x1A1B, 0x1A1B); (0x1A56, 0x1A56);
   (0x1A58, 0x1A5E); (0x1A60, 0x1A60); (0x1A62, 0x1A62); (0x1A65, 0x1A6C);
   (0x1A73, 0x1A7C); (0x1A7F, 0x1A7F); (0x1AA7, 0x1AA7); (0x1AB0, 0x1ACE);
   (0x1B00, 0x1B03); (0x1B34, 0x1B34); (0x1B36, 0x1B3A); (0x1B3C, 0x1B3C);
   (0x1B42, 0x1B42); (0x1B6B, 0x1B73); (0x1B80, 0x1B81); (0x1BA2, 0x1BA5);
   (0x1BA8, 0x1BA9); (0x1BAB, 0x1BAD); (0x1BE6, 0x1BE6); (0x1BE8, 0x1BE9);
   (0x1BED, 0x1BED); (0x1BEF, 0x1BF1); (0x1C2C, 0x1C33); (0x1C36, 0x1C37);
   (0x1C78, 0x1C7D); (0x1CD0, 0x1CD2); (0x1CD4, 0x1CE0); (0x1CE2, 0x1CE8);
   (0x1CED, 0x1CED); (0x1CF4, 0x1CF4); (0x1CF8, 0x1CF9); (0x1D2C, 0x1D6A);
   (0x1D78, 0x1D78); (0x1D9B, 0x1DFF); (0x1FBD, 0x1FBD); (0x1FBF, 0x1FC1);
   (0x1FCD, 0x1FCF); (0x1FDD, 0x1FDF); (0x1FED, 0x1FEF); (0x1FFD, 0x1FFE);
   (0x200B, 0x200F); (0x2018, 0x2019); (0x2024, 0x2024); (0x2027, 0x2027);
   (0x202A, 0x202E); (0x2060, 0x2064); (0x2066, 0x206F); (0x2071, 0x2071);
   (0x207F, 0x207F); (0x2090, 0x209C); (0x20D0, 0x20F0); (0x2C7C, 0x2C7D);
   (0x2CEF, 0x2CF1); (0x2D6F, 0x2D6F); (0x2D7F, 0x2D7F); (0x2DE0, 0x2DFF);
   (0x2E2F, 0x2E2F); (0x3005, 0x3005); (0x302A, 0x302D); (0x3031, 0x3035);
   (0x303B, 0x303B); (0x3099, 0x309E); (0x30FC, 0x30FE); (0xA015, 0xA015);
   (0xA4F8, 0xA4FD); (0xA60C, 0xA60C); (0xA66F, 0xA672); (0xA674, 0xA67D);
   (0xA67F, 0xA67F); (0xA69C, 0xA69F); (0xA6F0, 0xA6F1); (0xA700, 0xA721);
   (0xA770, 0xA770); (0xA788, 0xA78A); (0xA7F2, 0xA7F4); (0xA7F8, 0xA7F9);
   (0xA802, 0xA802); (0xA806, 0xA806); (0xA80B, 0xA80B); (0xA825, 0xA826);
   (0xA82C, 0xA82C); (0xA8C4, 0xA8C5); (0xA8E0, 0xA8F1); (0xA8FF, 0xA8FF);
   (0xA926, 0xA92D); (0xA947, 0xA951); (0xA980, 0xA982); (0xA9B3, 0xA9B3);
   (0xA9B6, 0xA9B9); (0xA9BC, 0xA9BD); (0xA9CF, 0xA9CF); (0xA9E5, 0xA9E6);
   (0xAA29, 0xAA2E); (0xAA31, 0xAA32); (0xAA35, 0xAA36); (0xAA43, 0xAA43);
   (0xAA4C, 0xAA4C); (0xAA70, 0xAA70); (0xAA7C, 0xAA7C); (0xAAB0, 0xAAB0);
   (0xAAB2, 0xAAB4); (0xAAB7, 0xAAB8); (0xAABE, 0xAABF); (0xAAC1, 0xAAC1);
   (0xAADD, 0xAADD); (0xAAEC, 0xAAED); (0xAAF3, 0xAAF4); (0xAAF6, 0xAAF6);
   (0xAB5B, 0xAB5F); (0xAB69, 0xAB6B); (0xABE5, 0xABE5); (0xABE8, 0xABE8);
   (0xABED, 0xABED); (0xFB1E, 0xFB1E); (0xFBB2, 0xFBC2); (0xFE00, 0xFE0F);
   (0xFE13, 0xFE13); (0xFE20, 0xFE2F); (0xFE52, 0xFE52); (0xFE55, 0xFE55);
   (0xFEFF, 0xFEFF); (0xFF07, 0xFF07); (0xFF0E, 0xFF0E); (0xFF1A, 0xFF1A);
   (0xFF3E, 0xFF3E); (0xFF40, 0xFF40); (0xFF70, 0xFF70); (0xFF9E, 0xFF9F);
   (0xFFE3, 0xFFE3); (0xFFF9, 0xFFFB); (0x101FD, 0x101FD);
   (0x102E0, 0x102E0); (0x10376, 0x1037A); (0x10780, 0x10785);
   (0x10787, 0x107B0); (0x107B2, 0x107BA); (0x10A01, 0x10A03);
   (0x10A05, 0x10A06); (0x10A0C, 0x10A0F); (0x10A38, 0x10A3A);
   (0x10A3F, 0x10A3F); (0x10AE5, 0x10AE6); (0x10D24, 0x10D27);
   (0x10EAB, 0x10EAC); (0x10F46, 0x10F50); (0x10F82, 0x10F85);
   (0x11001, 0x11001); (0x11038, 0x11046); (0x11070, 0x11070);
   (0x11073, 0x11074); (0x1107F, 0x11081); (0x110B3, 0x110B6);
   (0x110B9, 0x110BA); (0x110BD, 0x110BD); (0x110C2, 0x110C2);
   (0x110CD, 0x110CD); (0x11100, 0x11102); (0x11127, 0x1112B);
   (0x1112D, 0x11134); (0x11173, 0x11173); (0x11180, 0x11181);
   (0x111B6, 0x111BE); (0x111C9, 0x111CC); (0x111CF, 0x111CF);
   (0x1122F, 0x11231); (0x11234, 0x11234); (0x11236, 0x11237);
   (0x1123E, 0x1123E); (0x112DF, 0x112DF); (0x112E3, 0x112EA);
   (0x11300, 0x11301); (0x1133B, 0x1133C); (0x11340, 0x11340);
   (0x11366, 0x1136C); (0x11370, 0x11374); (0x11438, 0x1143F);
   (0x11442, 0x11444); (0x11446, 0x11446); (0x1145E, 0x1145E);
   (0x114B3, 0x114B8); (0x114BA, 0x114BA); (0x114BF, 0x114C0);
   (0x114C2, 0x114C3); (0x115B2, 0x115B5); (0x115BC, 0x115BD);
   (0x115BF, 0x115C0); (0x115DC, 0x115DD); (0x11633, 0x1163A);
   (0x1163D, 0x1163D); (0x1163F, 0x11640); (0x116AB, 0x116AB);
   (0x116AD, 0x116AD); (0x116B0, 0x116B5); (0x116B7, 0x116B7);
   (0x1171D, 0x1171F); (0x11722, 0x11725); (0x11727, 0x1172B);
   (0x1182F, 0x11837); (0x11839, 0x1183A); (0x1193B, 0x1193C);
   (0x1193E, 0x1193E); (0x11943, 0x11943); (0x119D4, 0x119D7);
   (0x119DA, 0x119DB); (0x119E0, 0x119E0); (0x11A01, 0x11A0A);
   (0x11A33, 0x11A38); (0x11A3B, 0x11A3E); (0x11A47, 0x11A47);
   (0x11A51, 0x11A56); (0x11A59, 0x11A5B); (0x11A8A, 0x11A96);
   (0x11A98, 0x11A99); (0x11C30, 0x11C36); (0x11C38, 0x11C3D);
   (0x11C3F, 0x11C3F); (0x11C92, 0x11CA7); (0x11CAA, 0x11CB0);
   (0x11CB2, 0x11CB3); (0x11CB5, 0x11CB6); (0x11D31, 0x11D36);
   (0x11D3A, 0x11D3A); (0x11D3C, 0x11D3D); (0x11D3F, 0x11D45);
   (0x11D47, 0x11D47); (0x11D90, 0x11D91); (0x11D95, 0x11D95);
   (0x11D97, 0x11D97); (0x11EF3, 0x11EF4); (0x13430, 0x13438);
   (0x16AF0, 0x16AF4); (0x16B30, 0x16B36); (0x16B40, 0x16B43);
   (0x16F4F, 0x16F4F); (0x16F8F, 0x16F9F); (0x16FE0, 0x16FE1);
   (0x16FE3, 0x16FE4); (0x1AFF0, 0x1AFF3); (0x1AFF5, 0x1AFFB);
   (0x1AFFD, 0x1AFFE); (0x1BC9D, 0x1BC9E); (0x1BCA0, 0x1BCA3);
   (0x1CF00, 0x1CF2D); (0x1CF30, 0x1CF46); (0x1D167, 0x1D169);
   (0x1D173, 0x1D182); (0x1D185, 0x1D18B); (0x1D1AA, 0x1D1AD);
   (0x1D242, 0x1D244); (0x1DA00, 0x1DA36); (0x1DA3B, 0x1DA6C);
   (0x1DA75, 0x1DA75); (0x1DA84, 0x1DA84); (0x1DA9B, 0x1DA9F);
   (0x1DAA1, 0x1DAAF); (0x1E000, 0x1E006); (0x1E008, 0x1E018);
   (0x1E01B, 0x1E021); (0x1E023, 0x1E024); (0x1E026, 0x1E02A);
   (0x1E130, 0x1E13D); (0x1E2AE, 0x1E2AE); (0x1E2EC, 0x1E2EF);
   (0x1E8D0, 0x1E8D6); (0x1E944, 0x1E94B); (0x1F3FB, 0x1F3FF);
   (0xE0001, 0xE0001); (0xE0020, 0xE007F); (0xE0100, 0xE01EF)
  ]%N.

Definition cased_table : list (N * N) :=
  [
   (0x41, 0x5A); (0x61, 0x7A); (0xAA, 0xAA); (0xB5, 0xB5); (0xBA, 0xBA);
   (0xC0, 0xD6); (0xD8, 0xF6); (0xF8, 0x1BA); (0x1BC, 0x1BF); (0x1C4, 0x293);
   (0x295, 0x2AF); (0x370, 0x373); (0x376, 0x377); (0x37B, 0x37D);
   (0x37F, 0x37F); (0x386, 0x386); (0x388, 0x38A); (0x38C, 0x38C);
   (0x38E, 0x3A1); (0x3A3, 0x3F5); (0x3F7, 0x481); (0x48A, 0x52F);
   (0x531, 0x556); (0x560, 0x588); (0x10A0, 0x10C5); (0x10C7, 0x10C7);
   (0x10CD, 0x10CD); (0x10D0, 0x10FA); (0x10FD, 0x10FF); (0x13A0, 0x13F5);
   (0x13F8, 0x13FD); (0x1C80, 0x1C88); (0x1C90, 0x1CBA); (0x1CBD, 0x1CBF);
   (0x1D00, 0x1D2B); (0x1D6B, 0x1D77); (0x1D79, 0x1D9A); (0x1E00, 0x1F15);
   (0x1F18, 0x1F1D); (0x1F20, 0x1F45); (0x1F48, 0x1F4D); (0x1F50, 0x1F57);
   (0x1F59, 0x1F59); (0x1F5B, 0x1F5B); (0x1F5D, 0x1F5D); (0x1F5F, 0x1F7D);
   (0x1F80, 0x1FB4); (0x1FB6, 0x1FBC); (0x1FBE, 0x1FBE); (0x1FC2, 0x1FC4);
   (0x1FC6, 0x1FCC); (0x1FD0, 0x1FD3); (0x1FD6, 0x1FDB); (0x1FE0, 0x1FEC);
   (0x1FF2, 0x1FF4); (0x1FF6, 0x1FFC); (0x2102, 0x2102); (0x2107, 0x2107);
   (0x210A, 0x2113); (0x2115, 0x2115); (0x2119, 0x211D); (0x2124, 0x2124);
   (0x2126, 0x2126); (0x2128, 0x2128); (0x212A, 0x212D); (0x212F, 0x2134);
   (0x2139, 0x2139); (0x213C, 0x213F); (0x2145, 0x2149); (0x214E, 0x214E);
   (0x2160, 0x217F); (0x2183, 0x2184); (0x24B6, 0x24E9); (0x2C00, 0x2C7B);
   (0x2C7E, 0x2CE4); (0x2CEB, 0x2CEE); (0x2CF2, 0x2CF3); (0x2D00, 0x2D25);
   (0x2D27, 0x2D27); (0x2D2D, 0x2D2D); (0xA640, 0xA66D); (0xA680, 0xA69B);
   (0xA722, 0xA76F); (0xA771, 0xA787); (0xA78B, 0xA78E); (0xA790, 0xA7CA);
   (0xA7D0, 0xA7D1); (0xA7D3, 0xA7D3); (0xA7D5, 0xA7D9); (0xA7F5, 0xA7F6);
   (0xA7FA, 0xA7FA); (0xAB30, 0xAB5A); (0xAB60, 0xAB68); (0xAB70, 0xABBF);
   (0xFB00, 0xFB06); (0xFB13, 0xFB17); (0xFF21, 0xFF3A); (0xFF41, 0xFF5A);
   (0x10400, 0x1044F); (0x104B0, 0x104D3); (0x104D8, 0x104FB);
   (0x10570, 0x1057A); (0x1057C, 0x1058A); (0x1058C, 0x10592);
   (0x10594, 0x10595); (0x10597, 0x105A1); (0x105A3, 0x105B1);
   (0x105B3, 0x105B9); (0x105BB, 0x105BC); (0x10C80, 0x10CB2);
   (0x10CC0, 0x10CF2); (0x118A0, 0x118DF); (0x16E40, 0x16E7F);
   (0x1D400, 0x1D454); (0x1D456, 0x1D49C); (0x1D49E, 0x1D49F);
   (0x1D4A2, 0x1D4A2); (0x1D4A5, 0x1D4A6); (0x1D4A9, 0x1D4AC);
   (0x1D4AE, 0x1D4B9); (0x1D4BB, 0x1D4BB); (0x1D4BD, 0x1D4C3);
   (0x1D4C5, 0x1D505); (0x1D507, 0x1D50A); (0x1D50D, 0x1D514);
   (0x1D516, 0x1D51C); (0x1D51E, 0x1D539); (0x1D53B, 0x1D53E);
   (0x1D540, 0x1D544); (0x1D546, 0x1D546); (0x1D54A, 0x1D550);
   (0x1D552, 0x1D6A5); (0x1D6A8, 0x1D6C0); (0x1D6C2, 0x1D6DA);
   (0x1D6DC, 0x1D6FA); (0x1D6FC, 0x1D714); (0x1D716, 0x1D734);
   (0x1D736, 0x1D74E); (0x1D750, 0x1D76E); (0x1D770, 0x1D788);
   (0x1D78A, 0x1D7A8); (0x1D7AA, 0x1D7C2); (0x1D7C4, 0x1D7CB);
   (0x1DF00, 0x1DF09); (0x1DF0B, 0x1DF1E); (0x1E900, 0x1E943);
   (0x1F130, 0x1F149); (0x1F150, 0x1F169); (0x1F170, 0x1F189)
  ]%N.

Definition whitespace_table : list (N * N) :=
  [
   (0x9, 0xD); (0x1C, 0x20); (0x85, 0x85); (0xA0, 0xA0); (0x1680, 0x1680);
   (0x2000, 0x200A); (0x2028, 0x2029); (0x202F, 0x202F); (0x205F, 0x205F);
   (0x3000, 0x3000)
  ]%N.

(** *** [str.lower] *)

Fixpoint to_lower (table : list (N * N * N * N)) (c : N) : N :=
  match table with
  | [] => c
  | (first, last, step, target) :: table' =>
      if ((first <=? c) && (c <=? last) && ((c - first) mod step =? 0))%N
      then (target + (c - first))%N
      else to_lower table' c
  end.

Definition is_case_ignorable : N → bool := in_ranges case_ignorable_table.
Definition is_cased : N → bool := in_ranges cased_table.

(** U+03A3 is a final sigma when the nearest code point before it that is
    not case-ignorable is cased, and the nearest one after it that is not
    case-ignorable is not cased or does not exist.  [before] holds the code
    points before it, nearest first. *)
Definition final_sigma (before after : list N) : bool :=
  match drop_while is_case_ignorable before with
  | [] => false
  | c :: _ =>
      is_cased c &&
      match drop_while is_case_ignorable after with
      | [] => true
      | c' :: _ => negb (is_cased c')
      end
  end.

Fixpoint lower_code_points (before cs : list N) : list N :=
  match cs with
  | [] => []
  | c :: cs' =>
      (if (c =? 0x3A3)%N then
         [if final_sigma before cs' then 0x3C2%N else 0x3C3%N]
       else if (c =? 0x130)%N then [0x69%N; 0x307%N]
       else [to_lower lowercase_table c])
      ++ lower_code_points (c :: before) cs'
  end.

Definition lower (s : string) : string :=
  utf8_encode (lower_code_points [] (utf8_decode s)).

(** *** [str.strip] *)

Definition isspace : N → bool := in_ranges whitespace_table.

Definition lstrip (s : string) : string :=
  utf8_encode (drop_while isspace (utf8_decode s)).

Definition rstrip (s : string) : string :=
  utf8_encode (rev (drop_while isspace (rev (utf8_decode s)))).

Definition strip (s : string) : string :=
  utf8_encode
    (rev (drop_while isspace (rev (drop_while isspace (utf8_decode s))))).

(** [needle in hay].  A code point's encoding starts at no other place of a
    well-formed text than where a code point starts, so the search over the
    bytes finds what the search over the code points finds. *)
Fixpoint str_in (needle hay : string) : bool :=
  String.prefix needle hay ||
  match hay with
  | EmptyString => false
  | String _ hay' => str_in needle hay'
  end.

(** [len(s)]: the number of code points, that is, of bytes that do not
    continue a multi-byte sequence. *)
Fixpoint len (s : string) : nat :=
  match s with
  | EmptyString => 0
  | String c s' =>
      let n := N_of_ascii c in
      (if ((128 <=? n) && (n <? 192))%N then 0 else 1) + len s'
  end.

(** [sep.join(parts)]. *)
Definition join (sep : string) (parts : list string) : string :=
  String.concat sep parts.

Definition NL : string := String "010"%char EmptyString.

End PyStr.

Import PyStr.

(** ** Data model *)

(** Exceptions derived from [Exception], the class both handlers catch: the
    ones the collaborators raise, and the [IndexError] of an out-of-range
    subscript. *)
Inductive Exn : Type :=
  | ProviderError (msg : string)
  | IndexError.

(** [str(e)]. *)
Definition str_exn (e : Exn) : string :=
  match e with
  | ProviderError msg => msg
  | IndexError => "list index out of range"
  end.

Definition Embedding : Type := list float.

(** A metadata value as the index stores it. *)
Inductive MetaValue : Type :=
  | MStr (s : string)
  | MInt (z : Z)
  | MFloat (f : float)
  | MBool (b : bool).

Abbreviation Metadata := (gmap string MetaValue).

(** [langchain.schema.Document], of which only [page_content] is read. *)
Record Document : Type := { page_content : string }.

(** The chat model's reply, of which only [content] is read. *)
Record AIMessage : Type := { content : string }.

(** One stored record of the collection. *)
Record IndexRecord : Type := {
  rec_id : string;
  rec_embedding : Embedding;
  rec_document : string;
  rec_metadata : Metadata
}.

(** The keyword arguments of one [collection.add] call. *)
Record AddBatch : Type := {
  add_embeddings : list Embedding;
  add_documents : list string;
  add_metadatas : list Metadata;
  add_ids : list string
}.

(** What [collection.query] returns for the [include] list of the service:
    one row per query embedding in each column. *)
Record QueryResults : Type := {
  documents : list (list string);
  metadatas : list (list Metadata);
  distances : list (list float)
}.

(** An entry of ["sources"]. *)
Record SourceAttribution : Type := {
  source : MetaValue;
  chunk_id : MetaValue;
  relevance_score : float
}.

(** The dictionary [query] returns. *)
Record QueryResult : Type := {
  answer : string;
  sources : list SourceAttribution
}.

(** Calls that leave the process, in the order they are made. *)
Inductive Event : Type :=
  | EvSplit (texts : list string)
  | EvEmbedDocuments (texts : list string)
  | EvEmbedQuery (text : string)
  | EvIndexAdd (batch : AddBatch)
  | EvIndexQuery (query_embeddings : list Embedding) (n_results : Z)
  | EvLlmInvoke (prompt : string)
  | EvPrint (line : string).

(** The collaborators.  [uuid4 k] is the text of the [k]-th UUID drawn;
    [collection_add_error] tells whether a write is rejected. *)
Record Providers : Type := {
  create_documents : list string → Exn + list Document;
  embed_documents : list string → Exn + list Embedding;
  embed_query : string → Exn + Embedding;
  llm_invoke : string → Exn + AIMessage;
  collection_query : list IndexRecord → list Embedding → Z → Exn + QueryResults;
  collection_add_error : list IndexRecord → AddBatch → option Exn;
  uuid4 : nat → string
}.

(** What a call can read and change: the stored collection, the number of
    UUIDs drawn so far, and the log of outside calls. *)
Record World : Type := {
  collection : list IndexRecord;
  drawn : nat;
  log : list Event
}.

Definition set_collection (c : list IndexRecord) (w : World) : World :=
  {| collection := c; drawn := drawn w; log := log w |}.

Definition set_drawn (n : nat) (w : World) : World :=
  {| collection := collection w; drawn := n; log := log w |}.

Definition emit (ev : Event) (w : World) : World :=
  {| collection := collection w; drawn := drawn w; log := log w ++ [ev] |}.

(** ** Computations that may raise *)

Definition Py (A : Type) : Type := World → (Exn + A) * World.

Global Instance py_ret : MRet Py := λ A a w, (inr a, w).

Global Instance py_bind : MBind Py := λ A B k m w,
  match m w with
  | (inl e, w') => (inl e, w')
  | (inr a, w') => k a w'
  end.

Definition raise {A : Type} (e : Exn) : Py A := λ w, (inl e, w).

(** [try: body / except Exception as e: handler e]. *)
Definition try_except {A : Type} (body : Py A) (handler : Exn → Py A) : Py A :=
  λ w, match body w with
       | (inl e, w') => handler e w'
       | (inr a, w') => (inr a, w')
       end.

(** An outside call: it is logged, then returns or raises. *)
Definition call {A : Type} (ev : Event) (outcome : Exn + A) : Py A :=
  λ w, (outcome, emit ev w).

(** [print(line)], taken to succeed. *)
Definition print (line : string) : Py unit := call (EvPrint line) (inr tt).

(** [l[i]] for [i >= 0]. *)
Definition subscript {A : Type} (l : list A) (i : nat) : Py A :=
  match l !! i with
  | Some x => mret x
  | None => raise IndexError
  end.

(** ** The service *)

(** The phrase table of [query]. *)
Definition casual_greetings : list string :=
  [ "how are you"; "كيف حالك"; "كيفك"; "شلونك"; "ازيك";
    "hello"; "hi"; "مرحبا"; "أهلا"; "السلام عليكم";
    "good morning"; "good evening"; "صباح الخير"; "مساء الخير" ].

(** The words whose presence selects the Arabic reply. *)
Definition ar_words : list string :=
  [ "كيف"; "شلون"; "ازي"; "مرحبا"; "أهلا"; "السلام" ].

Definition friendly_ar : string :=
  "مرحباً! أنا بخير، شكراً لسؤالك. أنا مساعدك الذكي في AgentX AI وأنا هنا لمساعدتك في أي استفسارات تتعلق بالشركة أو سياسات الموارد البشرية. كيف يمكنني مساعدتك اليوم؟".

Definition friendly_en : string :=
  "Hello! I'm doing great, thank you for asking! I'm your AI assistant at AgentX AI, and I'm here to help you with any questions about the company or HR policies. How can I assist you today?".

(** The reply when the index returns nothing. *)
Definition no_results_answer : string :=
  "عذراً، لم أتمكن من العثور على معلومات ذات صلة بسؤالك في قاعدة البيانات. هل يمكنك إعادة صياغة السؤال أو تقديم المزيد من التفاصيل؟".

(** The reply of the [except] branch of [query]. *)
Definition error_answer (e : Exn) : string :=
  "حدث خطأ أثناء معالجة السؤال: " +:+ str_exn e.

Definition error_result (e : Exn) : QueryResult :=
  {| answer := error_answer e; sources := [] |}.

(** The f-string of [query], one element per source line. *)
Definition prompt_of (context question : string) : string :=
  join NL
    [ "";
      "أنت مساعد ذكي ودود متخصص في الإجابة على الأسئلة المتعلقة بشركة AgentX AI وسياسات الموارد البشرية.";
      "";
      "تعليمات مهمة:";
      "1. كن ودوداً ومفيداً في جميع إجاباتك";
      "2. إذا سُئلت أسئلة عامة أو ودية، جاوب بشكل طبيعي وودود";
      "3. ركز على تقديم معلومات دقيقة ومفيدة";
      "4. إذا لم تكن المعلومات كافية، اقترح طرق للحصول على مزيد من المساعدة";
      "";
      "المعلومات المتاحة:";
      context;
      "";
      "السؤال: " +:+ question;
      "";
      "الإجابة: قدم إجابة شاملة ودقيقة وودية باللغة العربية بناءً على المعلومات المتاحة أعلاه.";
      "" ].

(** [question.lower().strip()]. *)
Definition question_lower (question : string) : string :=
  strip (lower question).

(** [any(greeting in question_lower for greeting in casual_greetings)]. *)
Definition is_casual (question : string) : bool :=
  existsb (λ greeting, str_in greeting (question_lower question)) casual_greetings.

(** The language test of the greeting branch. *)
Definition is_arabic (question : string) : bool :=
  existsb (λ ar_word, str_in ar_word (question_lower question)) ar_words.

(** The id of chunk [i], given the UUID drawn for it. *)
Definition chunk_id_of (filename : string) (i : nat) (uuid : string) : string :=
  filename +:+ "_" +:+ pretty i +:+ "_" +:+ uuid.

(** The metadata list of [add_document]. *)
Definition chunk_metadatas (filename : string) (texts : list string) : list Metadata :=
  imap (λ i text,
          {[ "source" := MStr filename;
             "chunk_id" := MInt (Z.of_nat i);
             "content_length" := MInt (Z.of_nat (len text)) ]}) texts.

(** The records a successful write stores, in batch order. *)
Fixpoint records_of (ids : list string) (embeddings : list Embedding)
    (texts : list string) (metas : list Metadata) : list IndexRecord :=
  match ids, embeddings, texts, metas with
  | i :: ids', e :: embeddings', t :: texts', m :: metas' =>
      {| rec_id := i; rec_embedding := e; rec_document := t; rec_metadata := m |}
      :: records_of ids' embeddings' texts' metas'
  | _, _, _, _ => []
  end.

Definition batch_records (b : AddBatch) : list IndexRecord :=
  records_of (add_ids b) (add_embeddings b) (add_documents b) (add_metadatas b).

Section Service.

Context (P : Providers).

(** [uuid.uuid4()], rendered in an f-string. *)
Definition uuid4_call : Py string :=
  λ w, (inr (uuid4 P (drawn w)), set_drawn (S (drawn w)) w).

(** [[f"{filename}_{i}_{uuid.uuid4()}" for i in ...]]. *)
Fixpoint make_ids (filename : string) (indices : list nat) : Py (list string) :=
  match indices with
  | [] => mret []
  | i :: rest =>
      u ← uuid4_call;
      ids ← make_ids filename rest;
      mret (chunk_id_of filename i u :: ids)
  end.

(** [self.collection.add(...)]: rejected as a whole, or stored as a whole. *)
Definition collection_add (b : AddBatch) : Py unit :=
  λ w, match collection_add_error P (collection w) b with
       | Some e => (inl e, emit (EvIndexAdd b) w)
       | None =>
           (inr tt,
            emit (EvIndexAdd b) (set_collection (collection w ++ batch_records b) w))
       end.

Definition add_document_body (content filename : string) : Py string :=
  documents ← call (EvSplit [content]) (create_documents P [content]);
  let texts := page_content <$> documents in
  embeddings ← call (EvEmbedDocuments texts) (embed_documents P texts);
  ids ← make_ids filename (seq 0 (length texts));
  let metadatas := chunk_metadatas filename texts in
  collection_add {| add_embeddings := embeddings; add_documents := texts;
                    add_metadatas := metadatas; add_ids := ids |};;
  mret ("Added " +:+ pretty (length texts) +:+ " chunks from " +:+ filename).

Definition add_document (content filename : string) : Py string :=
  try_except (add_document_body content filename)
    (λ e, print ("Error adding document: " +:+ str_exn e);; raise e).

(** The loop that fills [sources]; [i] is the [enumerate] counter. *)
Fixpoint attribute_loop (results : QueryResults) (i : nat)
    (metas : list Metadata) (sources : list SourceAttribution)
    : Py (list SourceAttribution) :=
  match metas with
  | [] => mret sources
  | metadata :: rest =>
      row ← subscript (distances results) 0;
      d ← subscript row i;
      attribute_loop results (S i) rest
        (sources ++
           [ {| source := default (MStr "Unknown") (metadata !! "source");
                chunk_id := default (MInt (Z.of_nat i)) (metadata !! "chunk_id");
                relevance_score := PrimFloat.sub 1 d |} ])
  end.

Definition query_body (question : string) (n_results : Z) : Py QueryResult :=
  if is_casual question then
    let response_text := if is_arabic question then friendly_ar else friendly_en in
    mret {| answer := response_text; sources := [] |}
  else
    question_embedding ← call (EvEmbedQuery question) (embed_query P question);
    results ← (λ w, call (EvIndexQuery [question_embedding] n_results)
                      (collection_query P (collection w) [question_embedding] n_results) w);
    docs ← subscript (documents results) 0;
    match docs with
    | [] => mret {| answer := no_results_answer; sources := [] |}
    | _ :: _ =>
        let context := join (NL +:+ NL) docs in
        let prompt := prompt_of context question in
        response ← call (EvLlmInvoke prompt) (llm_invoke P prompt);
        metas ← subscript (metadatas results) 0;
        sources ← attribute_loop results 0 metas [];
        mret {| answer := content response; sources := sources |}
    end.

Definition query (question : string) (n_results : Z) : Py QueryResult :=
  try_except (query_body question n_results)
    (λ e, print ("Error querying RAG system: " +:+ str_exn e);;
          mret (error_result e)).

End Service.


(** ** What the claims speak about *)

(** The entry the loop of [query] appends for hit [i]. *)
Definition attribution (i : nat) (metadata : Metadata) (d : float) : SourceAttribution :=
  {| source := default (MStr "Unknown") (metadata !! "source");
     chunk_id := default (MInt (Z.of_nat i)) (metadata !! "chunk_id");
     relevance_score := PrimFloat.sub 1 d |}.

(** The entries for the metadata row [metas] and the distances [ds], counted
    from [i]. *)
Fixpoint attributions (i : nat) (metas : list Metadata) (ds : list float)
    : list SourceAttribution :=
  match metas, ds with
  | metadata :: metas', d :: ds' =>
      attribution i metadata d :: attributions (S i) metas' ds'
  | _, _ => []
  end.

(** The hits of an index answer: the entries of its first document row. *)
Definition n_hits (results : QueryResults) : nat :=
  length (default [] (documents results !! 0)).

(** An index answer with one row per column, the rows equally long. *)
Definition well_formed (results : QueryResults) : Prop :=
  ∃ docs metas row,
    documents results !! 0 = Some docs
    ∧ metadatas results !! 0 = Some metas
    ∧ distances results !! 0 = Some row
    ∧ length metas = length docs
    ∧ length row = length docs.

(** The ids one [add_document] call assigns to [n] chunks when [first]
    UUIDs have been drawn before it. *)
Definition chunk_ids (P : Providers) (filename : string) (first n : nat) : list string :=
  (λ k, chunk_id_of filename k (uuid4 P (first + k))) <$> seq 0 n.

(** The batch one [add_document] call hands to [collection.add]. *)
Definition ingest_batch (P : Providers) (filename : string) (first : nat)
    (texts : list string) (embeddings : list Embedding) : AddBatch :=
  {| add_embeddings := embeddings;
     add_documents := texts;
     add_metadatas := chunk_metadatas filename texts;
     add_ids := chunk_ids P filename first (length texts) |}.

(** A series of uploads, each a [(content, filename)] pair, run one after
    the other whether or not they raise. *)
Fixpoint ingest_all (P : Providers) (uploads : list (string * string)) (w : World) : World :=
  match uploads with
  | [] => w
  | (content, filename) :: rest =>
      ingest_all P rest (snd (add_document P content filename w))
  end.

(** [c] does not occur in [s]. *)
Fixpoint free_of (c : ascii) (s : string) : Prop :=
  match s with
  | EmptyString => True
  | String x s' => x ≠ c ∧ free_of c s'
  end.

(** [id] was built from one of the first [bound] UUIDs. *)
Definition drawn_id (P : Providers) (bound : nat) (id : string) : Prop :=
  ∃ filename i k, k < bound ∧ id = chunk_id_of filename i (uuid4 P k).

(** The ids stored in the collection of [w]. *)
Definition stored_ids (w : World) : list string := rec_id <$> collection w.

(** Stored ids are pairwise distinct and come from UUIDs already drawn. *)
Definition ids_fresh (P : Providers) (w : World) : Prop :=
  NoDup (stored_ids w) ∧ Forall (drawn_id P (drawn w)) (stored_ids w).

(** ** Sample collaborators, for closed instances of the theorems *)

Module Demo.

(** A splitter that keeps each text as one chunk. *)
Definition one_chunk (texts : list string) : Exn + list Document :=
  inr ((λ t, {| page_content := t |}) <$> texts).

(** Thirty-six characters, different for different [k] below 10^12. *)
Definition uuid_text (k : nat) : string :=
  let digits := pretty k in
  "00000000-0000-4000-8000-"
    +:+ string_of_list_ascii (replicate (12 - String.length digits) "0"%char)
    +:+ digits.

(** Collaborators that answer every index query with [found] and every
    prompt with [reply]. *)
Definition providers (found : Exn + QueryResults) (reply : Exn + AIMessage)
    : Providers :=
  {| create_documents := one_chunk;
     embed_documents := λ texts, inr ((λ _, [0.5%float]) <$> texts);
     embed_query := λ _, inr [0.5%float];
     llm_invoke := λ _, reply;
     collection_query := λ _ _ _, found;
     collection_add_error := λ _ _, None;
     uuid4 := uuid_text |}.

(** The same with the embedding client down. *)
Definition embedder_down : Providers :=
  {| create_documents := one_chunk;
     embed_documents := λ _, inl (ProviderError "embedding unavailable");
     embed_query := λ _, inl (ProviderError "embedding unavailable");
     llm_invoke := λ _, inl (ProviderError "model unavailable");
     collection_query := λ _ _ _, inl (ProviderError "not reached");
     collection_add_error := λ _ _, None;
     uuid4 := uuid_text |}.

Definition empty_world : World := {| collection := []; drawn := 0; log := [] |}.

(** One hit, from chunk 3 of [leave.txt], at distance 0.25. *)
Definition one_hit : QueryResults :=
  {| documents := [["Annual leave is 21 days."]];
     metadatas := [[ {[ "source" := MStr "leave.txt"; "chunk_id" := MInt 3 ]} ]];
     distances := [[0.25%float]] |}.

(** Two hits whose distances lie outside the unit interval. *)
Definition far_hits : QueryResults :=
  {| documents := [["a"; "b"]];
     metadatas := [[ ∅; ∅ ]];
     distances := [[1.5%float; (-0.5)%float]] |}.

Definition no_hits : QueryResults :=
  {| documents := [[]]; metadatas := [[]]; distances := [[]] |}.

Definition plain_reply : Exn + AIMessage :=
  inr {| content := "Employees get 21 days." |}.

Definition padded_reply : Exn + AIMessage :=
  inr {| content := "  Employees get 21 days." +:+ NL |}.

Definition model_down : Exn + AIMessage := inl (ProviderError "model unavailable").

End Demo.

(** The outside calls a run of [query_body] can make, by stages. *)
Definition query_stages (P : Providers) (question : string) (n : Z) (w : World)
    (events : list Event) : Prop :=
  events = []
  ∨ is_casual question = false
    ∧ (events = [EvEmbedQuery question]
       ∨ ∃ v, embed_query P question = inr v
              ∧ (events = [EvEmbedQuery question; EvIndexQuery [v] n]
                 ∨ ∃ results doc docs,
                     collection_query P (collection w) [v] n = inr results
                     ∧ documents results !! 0 = Some (doc :: docs)
                     ∧ events = [EvEmbedQuery question; EvIndexQuery [v] n;
                                 EvLlmInvoke
                                   (prompt_of (join (NL +:+ NL) (doc :: docs))
                                      question)])).

(** ** Listing the stored documents *)

(** [f == z] for a float and an integer, which Python decides on the exact
    values. *)
Definition float_eq_int (f : float) (z : Z) : bool :=
  match Prim2SF f with
  | S754_zero _ => (z =? 0)%Z
  | S754_finite negative m e =>
      let magnitude := Z.pos m in
      let signed (v : Z) : Z := if negative then (- v)%Z else v in
      if (0 <=? e)%Z
      then (z =? signed (magnitude * 2 ^ e))%Z
      else ((magnitude mod 2 ^ (- e) =? 0) && (z =? signed (magnitude / 2 ^ (- e))))%Z
  | S754_infinity _ | S754_nan => false
  end.

Definition int_of_bool (b : bool) : Z := if b then 1%Z else 0%Z.

(** [a == b] between two metadata values; [bool] is a subtype of [int]. *)
Definition py_eq (a b : MetaValue) : bool :=
  match a, b with
  | MStr x, MStr y => String.eqb x y
  | MStr _, _ | _, MStr _ => false
  | MInt x, MInt y => (x =? y)%Z
  | MInt x, MBool y | MBool y, MInt x => (x =? int_of_bool y)%Z
  | MBool x, MBool y => Bool.eqb x y
  | MFloat x, MFloat y => PrimFloat.eqb x y
  | MFloat x, MInt y | MInt y, MFloat x => float_eq_int x y
  | MFloat x, MBool y | MBool y, MFloat x => float_eq_int x (int_of_bool y)
  end.

(** An entry of the list [list_documents] returns. *)
Record DocumentEntry : Type := {
  name : MetaValue;
  chunks : Z
}.

(** The dictionary [documents] of [list_documents]: keys in insertion
    order, no two of them equal. *)
Abbreviation DocumentDict := (list (MetaValue * DocumentEntry)).

(** The position of the key equal to [key], if there is one. *)
Fixpoint dict_index (key : MetaValue) (d : DocumentDict) : option nat :=
  match d with
  | [] => None
  | (k, _) :: d' => if py_eq k key then Some 0 else S <$> dict_index key d'
  end.

(** [metadata.get('source', 'Unknown')]. *)
Definition source_of (metadata : Metadata) : MetaValue :=
  default (MStr "Unknown") (metadata !! "source").

(** One turn of the loop of [list_documents].  A key that is not in the
    dictionary is inserted with zero chunks and, being the very object just
    inserted, found again by the increment that follows. *)
Definition count_source (documents : DocumentDict) (metadata : Metadata) : DocumentDict :=
  let source := source_of metadata in
  match dict_index source documents with
  | Some i =>
      alter (λ entry, (entry.1, {| name := name entry.2;
                                   chunks := (chunks entry.2 + 1)%Z |})) i documents
  | None =>
      documents ++ [ (source, {| name := source; chunks := (0 + 1)%Z |}) ]
  end.

(** [self.collection.get(include=["metadatas"])]; [collection_get] is what
    the index does on the stored collection: raise, or return the
    ["metadatas"] list. *)
Definition collection_get_call (collection_get : list IndexRecord → Exn + list Metadata)
    : Py (list Metadata) :=
  λ w, (collection_get (collection w), w).

Definition list_documents (collection_get : list IndexRecord → Exn + list Metadata)
    : Py (list DocumentEntry) :=
  try_except
    (results ← collection_get_call collection_get;
     let documents := foldl count_source [] results in
     mret (snd <$> documents))
    (λ e, print ("Error listing documents: " +:+ str_exn e);; mret []).

(** The index returning the metadata of what is stored, in storage order. *)
Definition stored_metadatas (records : list IndexRecord) : Exn + list Metadata :=
  inr (rec_metadata <$> records).

(** The chunk count listed under [key], zero when it is not listed. *)
Fixpoint listed_chunks (key : MetaValue) (entries : list DocumentEntry) : Z :=
  match entries with
  | [] => 0%Z
  | entry :: rest =>
      if py_eq (name entry) key then chunks entry else listed_chunks key rest
  end.

(** The sum of the chunk counts of a listing. *)
Definition total_chunks (entries : list DocumentEntry) : Z :=
  foldr (λ entry total, (chunks entry + total)%Z) 0%Z entries.

(** The source of [metadata] is the string [f]. *)
Definition has_source (f : string) (metadata : Metadata) : bool :=
  match source_of metadata with
  | MStr g => String.eqb g f
  | _ => false
  end.

(** The number of metadata entries whose source is the string [f]. *)
Definition count_from (f : string) (metas : list Metadata) : nat :=
  length (filter (λ metadata, has_source f metadata = true) metas).

(** Every source is a string, as for the records [add_document] writes and
    for records without a source. *)
Definition string_sources (metas : list Metadata) : Prop :=
  Forall (λ metadata, ∃ f, source_of metadata = MStr f) metas.

(** Entries are named after their keys. *)
Definition named_by_key (d : DocumentDict) : Prop :=
  Forall (λ p, name p.2 = p.1) d.

(** Sample index answers built from what [add_document] writes. *)
Module Samples.

(** A hit on the only chunk of [hr.txt]. *)
Definition hr_hit : QueryResults :=
  {| documents := [["Leave policy."]];
     metadatas := [chunk_metadatas "hr.txt" ["Leave policy."]];
     distances := [[0.25%float]] |}.

(** Metadata of three chunks of [a.txt], one of [b.txt] and one record
    without a source. *)
Definition mixed_metadatas : list Metadata :=
  chunk_metadatas "a.txt" ["x"; "y"] ++ chunk_metadatas "b.txt" ["z"]
    ++ [∅] ++ chunk_metadatas "a.txt" ["x"].

End Samples.

(** ** Start-up *)

(** [file.read()] on the opened file, with outcome [read]. *)
Definition read_text (read : Exn + string) : Py string := λ w, (read, w).

(** [self.collection.count()]: a call to the index, which raises [e] when
    [count_error] gives [Some e] for the stored records and returns their
    number otherwise. *)
Definition collection_count (count_error : list IndexRecord → option Exn) : Py nat :=
  λ w, match count_error (collection w) with
       | Some e => (inl e, w)
       | None => (inr (length (collection w)), w)
       end.

(** [_load_hr_data]; [hr_file] is [None] when [hr_data.txt] does not
    exist, otherwise the outcome of reading it. *)
Definition _load_hr_data (P : Providers) (hr_file : option (Exn + string)) : Py unit :=
  try_except
    (match hr_file with
     | Some read =>
         content ← read_text read;
         add_document P content "hr_data.txt";;
         print "HR data loaded successfully"
     | None => print "HR data file not found"
     end)
    (λ e, print ("Error loading HR data: " +:+ str_exn e)).

(** [initialize]; [setup] is the exception, if any, raised while the
    client, the collection, the embedding client, the chat model and the
    splitter are constructed.  A collection that had to be created is an
    empty one.  The count call lies inside the [try], so its exception is
    printed and raised again like any other. *)
Definition initialize (P : Providers) (setup : option Exn)
    (count_error : list IndexRecord → option Exn)
    (hr_file : option (Exn + string)) : Py unit :=
  try_except
    (match setup with Some e => raise e | None => mret tt end;;
     count ← collection_count count_error;
     if Nat.eqb count 0 then _load_hr_data P hr_file else mret tt)
    (λ e, print ("Error initializing RAG service: " +:+ str_exn e);; raise e).

(** What one start of the service meets: the outcome of the construction
    of the clients, of the count call and of reading the seed file. *)
Record Startup : Type := {
  start_setup : option Exn;
  start_count_error : list IndexRecord → option Exn;
  start_hr_file : option (Exn + string)
}.

(** A series of starts of the service over one persistent collection, each
    run whether or not the one before raised. *)
Fixpoint restarts (P : Providers) (starts : list Startup) (w : World) : World :=
  match starts with
  | [] => w
  | start :: rest =>
      restarts P rest
        (snd (initialize P (start_setup start) (start_count_error start)
                (start_hr_file start) w))
  end.

(** ** Audio format check of [services/stt_service.py] *)

(** [validate_audio_format], on the bytes of [audio_data]; none of the
    slices and comparisons can raise. *)
Definition validate_audio_format (audio_data : string) : bool :=
  if String.eqb (String.substring 0 4 audio_data) "RIFF"
     && String.eqb (String.substring 8 4 audio_data) "WAVE" then true
  else if String.eqb (String.substring 0 3 audio_data) "ID3"
          || String.eqb (String.substring 0 2 audio_data)
               (String "255"%char (String "251"%char EmptyString)) then true
  else if str_in "ftyp" (String.substring 0 20 audio_data) then true
  else if String.eqb (String.substring 0 4 audio_data) "OggS" then true
  else false.

(** ** Speech services and the HTTP layer *)

(** The answer to an HTTP request: [status_code], [content] and [text]. *)
Record HttpResponse : Type := {
  status_code : Z;
  http_content : string;
  http_text : string
}.

Record VoiceSettings : Type := {
  stability : float;
  similarity_boost : float;
  style : float;
  use_speaker_boost : bool
}.

(** The JSON body of the text-to-speech request. *)
Record TtsData : Type := {
  tts_text : string;
  model_id : string;
  voice_settings : VoiceSettings
}.

(** What the transcription call returns: a string, or an object with a
    [text] attribute. *)
Inductive Transcript : Type :=
  | TranscriptStr (s : string)
  | TranscriptObject (text : string).

(** The audio handed to [speech_to_text]: [bytes] or [io.BytesIO]. *)
Inductive AudioInput : Type :=
  | Bytes (data : string)
  | BytesIO (value : string).

(** The files of the machine, by path. *)
Abbreviation Files := (gmap string string).

(** What lies around the services: the speech providers, the interpreter's
    string hash and the failures of the file system.  [temp_create] is
    [NamedTemporaryFile(delete=False, suffix=".wav")]: it raises, or creates
    an empty file and gives its path.  [audio_open_error] is the exception,
    if any, of [os.makedirs] or of [open(audio_path, "wb")];
    [audio_write_error] is the exception, if any, of [f.write(audio_data)]
    on the opened file, together with what the file holds when it is
    raised. *)
Record Edge : Type := {
  http_post : string → TtsData → Exn + HttpResponse;
  transcribe : string → string → Exn + Transcript;
  py_hash : string → Z;
  temp_create : Files → Exn + string;
  temp_write_error : string → string → option Exn;
  audio_open_error : string → option Exn;
  audio_write_error : string → string → option (Exn * string)
}.

(** The RAG service together with the files. *)
Record Server : Type := {
  rag : World;
  files : Files
}.

Definition Srv (A : Type) : Type := Server → (Exn + A) * Server.

Global Instance srv_ret : MRet Srv := λ A a s, (inr a, s).

Global Instance srv_bind : MBind Srv := λ A B k m s,
  match m s with
  | (inl e, s') => (inl e, s')
  | (inr a, s') => k a s'
  end.

(** A computation of the RAG service, run on the server. *)
Definition lift {A : Type} (m : Py A) : Srv A :=
  λ s, let '(r, w') := m (rag s) in (r, {| rag := w'; files := files s |}).

Definition srv_raise {A : Type} (e : Exn) : Srv A := λ s, (inl e, s).

Definition srv_try_except {A : Type} (body : Srv A) (handler : Exn → Srv A) : Srv A :=
  λ s, match body s with
       | (inl e, s') => handler e s'
       | (inr a, s') => (inr a, s')
       end.

(** [try: body / finally: cleanup]: the cleanup runs in both cases, and an
    exception of its own replaces the outcome of the body. *)
Definition srv_try_finally {A : Type} (body : Srv A) (cleanup : Srv unit) : Srv A :=
  λ s, let '(r, s') := body s in
       match cleanup s' with
       | (inl e, s'') => (inl e, s'')
       | (inr _, s'') => (r, s'')
       end.

(** The default voice of [text_to_speech]. *)
Definition default_voice_id : string := "21m00Tcm4TlvDq8ikWAM".

Definition base_url : string := "https://api.elevenlabs.io/v1".

(** The URL [text_to_speech] posts to; [not voice_id] holds for [None] and
    for the empty string. *)
Definition tts_url (voice_id : option string) : string :=
  let voice_id :=
    match voice_id with
    | None => default_voice_id
    | Some v => if String.eqb v "" then default_voice_id else v
    end in
  base_url +:+ "/text-to-speech/" +:+ voice_id.

Definition tts_data (text : string) : TtsData :=
  {| tts_text := text;
     model_id := "eleven_multilingual_v2";
     voice_settings := {| stability := 0x1.6666666666666p-2;        (* 0.35 *)
                          similarity_boost := 0x1.6666666666666p-1; (* 0.7 *)
                          style := 0x1.999999999999ap-1;            (* 0.8 *)
                          use_speaker_boost := true |} |}.

(** An outside call whose outcome is [outcome]; these calls are not kept in
    the log. *)
Definition outcome_of {A : Type} (outcome : Exn + A) : Py A := λ w, (outcome, w).

(** [TTSService.text_to_speech]. *)
Definition text_to_speech (E : Edge) (text : string) (voice_id : option string)
    : Py string :=
  try_except
    (response ← outcome_of (http_post E (tts_url voice_id) (tts_data text));
     if (status_code response =? 200)%Z then mret (http_content response)
     else
       print ("ElevenLabs API error: " +:+ pretty (status_code response) +:+ " - "
                +:+ http_text response);;
       raise (ProviderError ("TTS API error: " +:+ pretty (status_code response))))
    (λ e, print ("Error in text_to_speech: " +:+ str_exn e);; raise e).

(** A call that changes nothing on the server and whose outcome, given the
    server, is [outcome]. *)
Definition srv_outcome {A : Type} (outcome : Server → Exn + A) : Srv A :=
  λ s, (outcome s, s).

(** [temp_file.write(...)] on the file just created: on failure the file
    stays; what it then holds is not known and is taken to be nothing. *)
Definition temp_write (E : Edge) (path data : string) : Srv unit :=
  λ s, let created := {| rag := rag s; files := <[path := ""]> (files s) |} in
       match temp_write_error E path data with
       | Some e => (inl e, created)
       | None => (inr tt, {| rag := rag s; files := <[path := data]> (files s) |})
       end.

(** [open(path, "rb")] and reading it. *)
Definition open_rb (path : string) : Srv string :=
  λ s, match files s !! path with
       | Some data => (inr data, s)
       | None =>
           (inl (ProviderError ("[Errno 2] No such file or directory: '" +:+ path
                                  +:+ "'")), s)
       end.

(** [os.path.exists(path)] and [os.unlink(path)]. *)
Definition path_exists (path : string) : Srv bool :=
  λ s, (inr (bool_decide (is_Some (files s !! path))), s).

Definition unlink (path : string) : Srv unit :=
  λ s, (inr tt, {| rag := rag s; files := delete path (files s) |}).

Definition audio_bytes (audio_data : AudioInput) : string :=
  match audio_data with
  | Bytes data => data
  | BytesIO value => value
  end.

(** [STTService.speech_to_text]. *)
Definition speech_to_text (E : Edge) (audio_data : AudioInput) (language : string)
    : Srv string :=
  srv_try_except
    (temp_file_path ← srv_outcome (λ s, temp_create E (files s));
     temp_write E temp_file_path (audio_bytes audio_data);;
     srv_try_finally
       (audio_file ← open_rb temp_file_path;
        transcript ← srv_outcome (λ _, transcribe E audio_file language);
        mret (match transcript with
              | TranscriptStr text => strip text
              | TranscriptObject text => strip text
              end))
       (there ← path_exists temp_file_path;
        if (there : bool) then unlink temp_file_path else mret tt))
    (λ e, lift (print ("Error in speech_to_text: " +:+ str_exn e));; srv_raise e).

(** The endpoints of [main.py]. *)
Module Main.

Record QueryRequest : Type := {
  question : string;
  use_voice : option bool
}.

Record QueryResponse : Type := {
  response_answer : string;
  response_sources : list SourceAttribution;
  audio_url : option string
}.

(** The dictionary [query_voice] returns. *)
Record VoiceResponse : Type := {
  voice_question : string;
  voice_answer : string;
  voice_sources : list SourceAttribution;
  voice_audio_url : option string
}.


Inductive HTTPException : Type :=
  | HTTPError (code : Z) (detail : string).

(** The outer handler of every endpoint:
    [except Exception as e: raise HTTPException(status_code=500, detail=str(e))]. *)
Definition or_500 {A : Type} (body : Srv A) : Server → (HTTPException + A) * Server :=
  λ s, match body s with
       | (inl e, s') => (inl (HTTPError 500 (str_exn e)), s')
       | (inr a, s') => (inr a, s')
       end.

(** [os.makedirs("frontend/audio", exist_ok=True)] followed by
    [with open(audio_path, "wb") as f: f.write(audio_data)].  When
    [makedirs] or [open] raises, no file has been touched.  [open] in mode
    ["wb"] creates the file or empties the one that is there, so when
    [f.write] raises the file exists and holds what had been written by
    then, not what it held before. *)
Definition save_audio (E : Edge) (audio_path audio_data : string) : Srv unit :=
  λ s, match audio_open_error E audio_path with
       | Some e => (inl e, s)
       | None =>
           match audio_write_error E audio_path audio_data with
           | Some (e, written) =>
               (inl e, {| rag := rag s; files := <[audio_path := written]> (files s) |})
           | None =>
               (inr tt, {| rag := rag s; files := <[audio_path := audio_data]> (files s) |})
           end
       end.

(** [f"{prefix}{hash(answer) % 10000}.mp3"]. *)
Definition audio_filename (E : Edge) (prefix answer : string) : string :=
  prefix +:+ pretty (py_hash E answer `mod` 10000)%Z +:+ ".mp3".

Definition query_documents (P : Providers) (E : Edge) (request : QueryRequest)
    : Server → (HTTPException + QueryResponse) * Server :=
  or_500
    (result ← lift (query P (question request) 5);
     let response := {| response_answer := answer result;
                        response_sources := sources result;
                        audio_url := None |} in
     srv_try_except
       (audio_data ← lift (text_to_speech E (answer result) None);
        let audio_filename := audio_filename E "response_" (answer result) in
        let audio_path := "frontend/audio/" +:+ audio_filename in
        save_audio E audio_path audio_data;;
        mret {| response_answer := answer result;
                response_sources := sources result;
                audio_url := Some ("/static/audio/" +:+ audio_filename) |})
       (λ e, lift (print ("TTS Error: " +:+ str_exn e));; mret response)).

(** [query_voice]; [upload] is the outcome of [await audio_file.read()]. *)
Definition query_voice (P : Providers) (E : Edge) (upload : Exn + string)
    : Server → (HTTPException + VoiceResponse) * Server :=
  or_500
    (audio_data ← lift (outcome_of upload);
     question ← speech_to_text E (Bytes audio_data) "ar";
     result ← lift (query P question 5);
     audio_response ←
       srv_try_except
         (audio_data ← lift (text_to_speech E (answer result) None);
          let audio_filename := audio_filename E "voice_response_" (answer result) in
          let audio_path := "frontend/audio/" +:+ audio_filename in
          save_audio E audio_path audio_data;;
          mret (Some ("/static/audio/" +:+ audio_filename)))
         (λ e, lift (print ("TTS Error in voice query: " +:+ str_exn e));; mret None);
     mret {| voice_question := question;
             voice_answer := answer result;
             voice_sources := sources result;
             voice_audio_url := audio_response |}).


(** [list_documents], the endpoint. *)
Definition list_documents (collection_get : list IndexRecord → Exn + list Metadata)
    : Server → (HTTPException + list DocumentEntry) * Server :=
  or_500 (documents ← lift (list_documents collection_get); mret documents).

End Main.

(** Sample surroundings for closed instances. *)
Module Studio.

(** Speech providers that answer every request with [reply] and hear
    [heard] in every recording; a hash that sends every text to 7. *)
Definition edge (reply : Exn + HttpResponse) (heard : Exn + Transcript) : Edge :=
  {| http_post := λ _ _, reply;
     transcribe := λ _ _, heard;
     py_hash := λ _, 7%Z;
     temp_create := λ _, inr "/tmp/tmpa1.wav";
     temp_write_error := λ _ _, None;
     audio_open_error := λ _, None;
     audio_write_error := λ _ _, None |}.

(** The same surroundings with a disk that takes [written] and then fails
    every write to an audio file. *)
Definition full_disk (written : string) (reply : Exn + HttpResponse) : Edge :=
  {| http_post := λ _ _, reply;
     transcribe := λ _ _, inl (ProviderError "no recording");
     py_hash := λ _, 7%Z;
     temp_create := λ _, inr "/tmp/tmpa1.wav";
     temp_write_error := λ _ _, None;
     audio_open_error := λ _, None;
     audio_write_error :=
       λ _ _, Some (ProviderError "[Errno 28] No space left on device", written) |}.

Definition spoken : Exn + HttpResponse :=
  inr {| status_code := 200; http_content := "ID3 spoken answer"; http_text := "" |}.

Definition quota_exceeded : Exn + HttpResponse :=
  inr {| status_code := 401; http_content := "{}"; http_text := "quota exceeded" |}.

Definition heard_question : Exn + Transcript :=
  inr (TranscriptStr "  what about annual leave? ").

Definition empty_server : Server := {| rag := Demo.empty_world; files := ∅ |}.

End Studio.

(** ** Facts about the string operations *)

Lemma app_cons_str (c : ascii) (a b : string) :
  String c a +:+ b = String c (a +:+ b).
Proof. reflexivity. Qed.

Lemma app_assoc_str (a b c : string) : (a +:+ b) +:+ c = a +:+ (b +:+ c).
Proof. induction a as [|x a IH]; [done|]. by rewrite !app_cons_str, IH. Qed.

Lemma length_app_str (a b : string) :
  String.length (a +:+ b) = String.length a + String.length b.
Proof. induction a as [|x a IH]; [done|]. rewrite app_cons_str. cbn. by rewrite IH. Qed.

(** [String.prefix] is "starts with". *)
Lemma prefix_spec (needle hay : string) :
  String.prefix needle hay = true ↔ ∃ rest, hay = needle +:+ rest.
Proof.
  revert hay. induction needle as [|c needle IH]; intros hay.
  - split; [intros _; by exists hay|intros _; by destruct hay].
  - destruct hay as [|c' hay]; cbn [String.prefix].
    + split; [done|intros [rest Hrest]; discriminate Hrest].
    + destruct (ascii_dec c c') as [->|Hne].
      * rewrite IH. split; intros [rest Hrest]; exists rest.
        -- by rewrite app_cons_str, Hrest.
        -- rewrite app_cons_str in Hrest. by injection Hrest.
      * split; [done|]. intros [rest Hrest].
        rewrite app_cons_str in Hrest. injection Hrest as Hc _. by destruct Hne.
Qed.

(** [str_in needle hay] is Python's substring test: [hay] can be cut into a
    part before, [needle], and a part after. *)
Lemma str_in_spec (needle hay : string) :
  str_in needle hay = true ↔ ∃ before after, hay = before +:+ needle +:+ after.
Proof.
  induction hay as [|c hay IH].
  - cbn [str_in]. rewrite orb_false_r, prefix_spec. split.
    + intros [rest Hrest]. by exists "", rest.
    + intros [before [after Heq]]. destruct before; [by exists after|discriminate Heq].
  - cbn [str_in]. rewrite orb_true_iff, prefix_spec, IH. split.
    + intros [[rest Hrest]|[before [after Heq]]].
      * by exists "", rest.
      * exists (String c before), after. by rewrite app_cons_str, Heq.
    + intros [before [after Heq]]. destruct before as [|c' before].
      * left. by exists after.
      * right. exists before, after. rewrite app_cons_str in Heq. by injection Heq.
Qed.

(** *** Decoding and encoding

    Every string, well-formed or not, is what its code points encode, so
    [lower] and [strip] change a text only where they change its code
    points. *)

Ltac lia_div := zify; Z.to_euclidean_division_equations; lia.

(** One step of the decoder takes the encoding of one code point off the
    front. *)
Lemma utf8_encode_decode_one (s : string) :
  match s with
  | EmptyString => True
  | String b0 s1 =>
      ∃ c rest, utf8_decode s = c :: utf8_decode rest
                ∧ s = utf8_encode_one c +:+ rest
                ∧ String.length rest < String.length s
  end.
Proof.
  destruct s as [|b0 s1]; [done|].
  pose proof (N_ascii_bounded b0) as Hb0.
  pose proof (ascii_N_embedding b0) as He0.
  assert (∃ c rest, (0x110000 + N_of_ascii b0)%N :: utf8_decode s1 = c :: utf8_decode rest
                    ∧ String b0 s1 = utf8_encode_one c +:+ rest
                    ∧ String.length rest < String.length (String b0 s1)) as Hstray.
  { exists (0x110000 + N_of_ascii b0)%N, s1. split; [done|]. split; [|cbn; lia].
    unfold utf8_encode_one.
    repeat match goal with
           | |- context [(?a <? ?b)%N] => destruct (N.ltb_spec a b); try lia_div
           end.
    cbv beta iota fix delta [String.append]. f_equal. rewrite <- He0 at 1. f_equal. lia_div. }
  cbn [utf8_decode]. cbv zeta.
  destruct (N.ltb_spec (N_of_ascii b0) 0x80).
  { exists (N_of_ascii b0), s1. split; [done|]. split; [|cbn; lia].
    unfold utf8_encode_one. destruct (N.ltb_spec (N_of_ascii b0) 0x80); [|lia].
    cbv beta iota fix delta [String.append]. by rewrite He0. }
  destruct s1 as [|b1 s2]; [exact Hstray|].
  pose proof (N_ascii_bounded b1) as Hb1.
  pose proof (ascii_N_embedding b1) as He1.
  unfold is_continuation.
  destruct (N.leb_spec 0x80 (N_of_ascii b1)); cbn [andb negb]; [|exact Hstray].
  destruct (N.ltb_spec (N_of_ascii b1) 0xC0); cbn [andb negb]; [|exact Hstray].
  destruct (N.ltb_spec (N_of_ascii b0) 0xC0); [exact Hstray|].
  destruct (N.ltb_spec (N_of_ascii b0) 0xE0).
  { destruct (N.leb_spec 0x80 ((N_of_ascii b0 - 0xC0) * 0x40 + (N_of_ascii b1 - 0x80)));
      [|exact Hstray].
    eexists _, s2. split; [reflexivity|]. split; [|cbn; lia].
    unfold utf8_encode_one.
    repeat match goal with
           | |- context [(?a <? ?b)%N] => destruct (N.ltb_spec a b); try lia_div
           end.
    cbv beta iota fix delta [String.append]. rewrite <- He0 at 1. rewrite <- He1 at 1. repeat f_equal; lia_div. }
  destruct s2 as [|b2 s3]; [exact Hstray|].
  pose proof (N_ascii_bounded b2) as Hb2.
  pose proof (ascii_N_embedding b2) as He2.
  destruct (N.leb_spec 0x80 (N_of_ascii b2)); cbn [andb negb]; [|exact Hstray].
  destruct (N.ltb_spec (N_of_ascii b2) 0xC0); cbn [andb negb]; [|exact Hstray].
  destruct (N.ltb_spec (N_of_ascii b0) 0xF0).
  { match goal with |- context [(0x800 <=? ?c)%N] => destruct (N.leb_spec 0x800 c) end;
      [|exact Hstray].
    eexists _, s3. split; [reflexivity|]. split; [|cbn; lia].
    unfold utf8_encode_one.
    repeat match goal with
           | |- context [(?a <? ?b)%N] => destruct (N.ltb_spec a b); try lia_div
           end.
    cbv beta iota fix delta [String.append]. rewrite <- He0 at 1. rewrite <- He1 at 1. rewrite <- He2 at 1.
    repeat f_equal; lia_div. }
  destruct s3 as [|b3 s4]; [exact Hstray|].
  pose proof (N_ascii_bounded b3) as Hb3.
  pose proof (ascii_N_embedding b3) as He3.
  destruct (N.leb_spec 0x80 (N_of_ascii b3)); cbn [andb negb]; [|exact Hstray].
  destruct (N.ltb_spec (N_of_ascii b3) 0xC0); cbn [andb negb]; [|exact Hstray].
  match goal with |- context [(0x10000 <=? ?c)%N] => destruct (N.leb_spec 0x10000 c) end;
    cbn [andb]; [|exact Hstray].
  match goal with |- context [(?c <? 0x110000)%N] => destruct (N.ltb_spec c 0x110000) end;
    [|exact Hstray].
  eexists _, s4. split; [reflexivity|]. split; [|cbn; lia].
  unfold utf8_encode_one.
  repeat match goal with
         | |- context [(?a <? ?b)%N] => destruct (N.ltb_spec a b); try lia_div
         end.
  cbv beta iota fix delta [String.append]. rewrite <- He0 at 1. rewrite <- He1 at 1. rewrite <- He2 at 1. rewrite <- He3 at 1.
  repeat f_equal; lia_div.
Qed.

Lemma utf8_encode_decode (s : string) : utf8_encode (utf8_decode s) = s.
Proof.
  remember (String.length s) as n eqn:Hn.
  revert s Hn. induction (lt_wf n) as [n _ IH]. intros s ->.
  pose proof (utf8_encode_decode_one s) as Hone.
  destruct s as [|b0 s1]; [done|].
  destruct Hone as (c & rest & -> & Hs & Hlen).
  cbn [utf8_encode]. rewrite (IH _ Hlen rest eq_refl). by rewrite <- Hs.
Qed.

(** The special cases of [str.lower] and the spaces of [str.strip] beyond
    the ASCII ones: U+0130 becomes "i" and U+0307, so "H" before it makes a
    "hi"; the Kelvin sign U+212A becomes "k"; a capital sigma at the end of
    a word becomes the final sigma U+03C2, elsewhere U+03C3; the no-break
    space U+00A0 and the ideographic space U+3000 are stripped. *)
Lemma unicode_case_and_space :
  lower (utf8_encode [0x48; 0x130]%N) = utf8_encode [0x68; 0x69; 0x307]%N
  ∧ str_in "hi" (strip (lower (utf8_encode [0x48; 0x130]%N))) = true
  ∧ lower (utf8_encode [0x212A]%N) = "k"
  ∧ lower (utf8_encode [0x39F; 0x3A3; 0x39F; 0x3A3]%N)
    = utf8_encode [0x3BF; 0x3C3; 0x3BF; 0x3C2]%N
  ∧ strip (utf8_encode [0xA0; 0x68; 0x69; 0x3000]%N) = "hi".
Proof. repeat split; vm_compute; reflexivity. Qed.

(** ** The greeting branch *)

(** A casual question is answered at once: nothing is logged, nothing
    changes. *)
Lemma query_casual (P : Providers) (question : string) (n : Z) (w : World) :
  is_casual question = true →
  query P question n w =
    (inr {| answer := if is_arabic question then friendly_ar else friendly_en;
            sources := [] |}, w).
Proof.
  intros Hcasual. unfold query, try_except, query_body. by rewrite Hcasual.
Qed.

Lemma is_casual_intro (question greeting : string) :
  greeting ∈ casual_greetings →
  str_in greeting (question_lower question) = true →
  is_casual question = true.
Proof.
  intros Hin Hsub. unfold is_casual. apply existsb_exists.
  exists greeting. split; [by apply list_elem_of_In|done].
Qed.

(** C10.  Greeting detection is by substring containment: when the
    lowercased, stripped question contains a phrase of the table anywhere,
    even inside a longer word, [query] returns one of the two canned replies
    with empty sources, and the world comes back as it was: no embedding,
    index or model call has been logged. *)
Theorem greeting_by_substring (P : Providers) (question : string) (n : Z) (w : World)
    (greeting before after : string) :
  greeting ∈ casual_greetings →
  question_lower question = before +:+ greeting +:+ after →
  ∃ reply,
    query P question n w = (inr {| answer := reply; sources := [] |}, w)
    ∧ (reply = friendly_ar ∨ reply = friendly_en).
Proof.
  intros Hin Hcut.
  assert (is_casual question = true) as Hcasual.
  { apply (is_casual_intro question greeting Hin), str_in_spec. eauto. }
  exists (if is_arabic question then friendly_ar else friendly_en). split.
  - by apply query_casual.
  - destruct (is_arabic question); auto.
Qed.

(** The letters "hi" inside "which" make a question about overtime a
    greeting, whatever the index holds. *)
Lemma greeting_by_substring_witness :
  ∃ reply,
    query (Demo.providers (inr Demo.one_hit) Demo.plain_reply)
      "Which policy applies to overtime?" 5 Demo.empty_world
      = (inr {| answer := reply; sources := [] |}, Demo.empty_world)
    ∧ (reply = friendly_ar ∨ reply = friendly_en).
Proof.
  apply (greeting_by_substring _ "Which policy applies to overtime?" 5 _
           "hi" "w" "ch policy applies to overtime?").
  - vm_compute. repeat constructor.
  - reflexivity.
Defined.

(** C4.  The two Arabic phrases of the table that contain none of the
    language words, "صباح الخير" and "مساء الخير", are recognised as
    greetings but answered with the English reply; the other seven Arabic
    phrases get the Arabic reply.  In every case the sources are empty and
    the world is untouched. *)
Theorem arabic_greeting_reply (P : Providers) (n : Z) (w : World) :
  query P "صباح الخير" n w = (inr {| answer := friendly_en; sources := [] |}, w)
  ∧ query P "مساء الخير" n w = (inr {| answer := friendly_en; sources := [] |}, w)
  ∧ friendly_en ≠ friendly_ar
  ∧ Forall (λ greeting,
              query P greeting n w
                = (inr {| answer := friendly_ar; sources := [] |}, w))
      [ "كيف حالك"; "كيفك"; "شلونك"; "ازيك"; "مرحبا"; "أهلا"; "السلام عليكم" ].
Proof.
  split; [by apply query_casual|].
  split; [by apply query_casual|].
  split; [discriminate|].
  repeat constructor; by apply query_casual.
Qed.

(** ** The retrieval branch *)

(** The steps of [query_body] up to the index's answer. *)
Lemma query_body_retrieved (P : Providers) (question : string) (n : Z) (w : World)
    (v : Embedding) (results : QueryResults) :
  is_casual question = false →
  embed_query P question = inr v →
  collection_query P (collection w) [v] n = inr results →
  query_body P question n w =
    (docs ← subscript (documents results) 0;
     match docs with
     | [] => mret {| answer := no_results_answer; sources := [] |}
     | _ :: _ =>
         let prompt := prompt_of (join (NL +:+ NL) docs) question in
         response ← call (EvLlmInvoke prompt) (llm_invoke P prompt);
         metas ← subscript (metadatas results) 0;
         sources ← attribute_loop results 0 metas [];
         mret {| answer := content response; sources := sources |}
     end) (emit (EvIndexQuery [v] n) (emit (EvEmbedQuery question) w)).
Proof.
  intros Hcasual Hembed Hquery. unfold query_body. rewrite Hcasual.
  unfold mbind at 1, py_bind at 1, call at 1. rewrite Hembed.
  unfold mbind at 1, py_bind at 1, call at 1. cbn [collection emit].
  by rewrite Hquery.
Qed.

(** The steps of [query] when the index returns an empty document row. *)
Lemma query_no_hits (P : Providers) (question : string) (n : Z) (w : World)
    (v : Embedding) (results : QueryResults) :
  is_casual question = false →
  embed_query P question = inr v →
  collection_query P (collection w) [v] n = inr results →
  documents results !! 0 = Some [] →
  query P question n w =
    (inr {| answer := no_results_answer; sources := [] |},
     emit (EvIndexQuery [v] n) (emit (EvEmbedQuery question) w)).
Proof.
  intros Hcasual Hembed Hquery Hdocs. unfold query, try_except.
  rewrite (query_body_retrieved P question n w v results) by done.
  unfold mbind, py_bind, subscript. by rewrite Hdocs.
Qed.

(** C5, as amended.  For a question that is not a greeting and whose
    embedding succeeds, when the index returns no hits, [query] returns the
    fixed "no information" answer with empty sources.  The only outside
    calls are the embedding and the index query; the answer is not the
    error answer of any exception. *)
Theorem no_hits_answer (P : Providers) (question : string) (n : Z) (w : World)
    (v : Embedding) (results : QueryResults) :
  is_casual question = false →
  embed_query P question = inr v →
  collection_query P (collection w) [v] n = inr results →
  documents results !! 0 = Some [] →
  query P question n w =
    (inr {| answer := no_results_answer; sources := [] |},
     emit (EvIndexQuery [v] n) (emit (EvEmbedQuery question) w))
  ∧ ∀ e, no_results_answer ≠ error_answer e.
Proof.
  intros Hcasual Hembed Hquery Hdocs. split.
  - by apply (query_no_hits P question n w v results).
  - intros e Heq. vm_compute in Heq. discriminate Heq.
Qed.

Lemma no_hits_answer_witness :
  query (Demo.providers (inr Demo.no_hits) Demo.plain_reply)
    "What about annual leave?" 5 Demo.empty_world =
    (inr {| answer := no_results_answer; sources := [] |},
     emit (EvIndexQuery [[0.5%float]] 5)
       (emit (EvEmbedQuery "What about annual leave?") Demo.empty_world))
  ∧ ∀ e, no_results_answer ≠ error_answer e.
Proof.
  apply (no_hits_answer _ "What about annual leave?" 5 Demo.empty_world
           [0.5%float] Demo.no_hits); reflexivity.
Defined.

(** Two queries against an empty index that do not get the "no
    information" answer: a greeting gets the canned reply, and a question
    whose embedding fails gets the error answer. *)
Lemma empty_index_other_answers :
  collection Demo.empty_world = []
  ∧ query (Demo.providers (inr Demo.no_hits) Demo.plain_reply) "hello" 5
      Demo.empty_world
    = (inr {| answer := friendly_en; sources := [] |}, Demo.empty_world)
  ∧ friendly_en ≠ no_results_answer
  ∧ fst (query Demo.embedder_down "What about annual leave?" 5 Demo.empty_world)
    = inr (error_result (ProviderError "embedding unavailable"))
  ∧ error_answer (ProviderError "embedding unavailable") ≠ no_results_answer.
Proof.
  split; [reflexivity|]. split; [vm_compute; reflexivity|].
  split; [discriminate|]. split; [vm_compute; reflexivity|].
  intros Heq. vm_compute in Heq. discriminate Heq.
Qed.

(** ** The [except] branch *)

Lemma query_caught (P : Providers) (question : string) (n : Z) (w w1 : World) (e : Exn) :
  query_body P question n w = (inl e, w1) →
  query P question n w =
    (inr (error_result e),
     emit (EvPrint ("Error querying RAG system: " +:+ str_exn e)) w1).
Proof. intros Hbody. unfold query, try_except. by rewrite Hbody. Qed.

(** C1.  [query] never raises: for every question and every behaviour of
    the collaborators it returns a result.  Whenever an exception is raised
    inside its body, the result is the error message built from that
    exception, with empty sources; and a failing embedding call, a failing
    index query and a failing model call each raise inside the body of a
    question that is not a greeting. *)
Theorem query_never_raises (P : Providers) (question : string) (n : Z) (w : World) :
  (∃ r w', query P question n w = (inr r, w'))
  ∧ (∀ e w1, query_body P question n w = (inl e, w1) →
       fst (query P question n w)
         = inr {| answer := "حدث خطأ أثناء معالجة السؤال: " +:+ str_exn e;
                  sources := [] |})
  ∧ (is_casual question = false →
       (∀ e, embed_query P question = inl e →
          fst (query P question n w) = inr (error_result e))
       ∧ (∀ v e, embed_query P question = inr v →
            collection_query P (collection w) [v] n = inl e →
            fst (query P question n w) = inr (error_result e))
       ∧ (∀ v results doc docs e,
            embed_query P question = inr v →
            collection_query P (collection w) [v] n = inr results →
            documents results !! 0 = Some (doc :: docs) →
            llm_invoke P (prompt_of (join (NL +:+ NL) (doc :: docs)) question) = inl e →
            fst (query P question n w) = inr (error_result e))).
Proof.
  split; [|split].
  - unfold query, try_except.
    destruct (query_body P question n w) as [[e|r] w']; eauto.
  - intros e w1 Hbody. by rewrite (query_caught P question n w w1 e Hbody).
  - intros Hcasual. split; [|split].
    + intros e Hembed. unfold query, try_except, query_body. rewrite Hcasual.
      unfold mbind at 1, py_bind at 1, call at 1. by rewrite Hembed.
    + intros v e Hembed Hquery. unfold query, try_except, query_body.
      rewrite Hcasual. unfold mbind at 1, py_bind at 1, call at 1. rewrite Hembed.
      unfold mbind at 1, py_bind at 1, call at 1. cbn [collection emit].
      by rewrite Hquery.
    + intros v results doc docs e Hembed Hquery Hdocs Hllm.
      unfold query, try_except.
      rewrite (query_body_retrieved P question n w v results) by done.
      unfold mbind at 1, py_bind at 1, subscript at 1. rewrite Hdocs.
      cbn [mret py_ret]. cbv zeta.
      unfold mbind at 1, py_bind at 1, call at 1. by rewrite Hllm.
Qed.

(** With the model down, a question that reached one hit gets the error
    answer. *)
Lemma query_never_raises_witness :
  fst (query (Demo.providers (inr Demo.one_hit) Demo.model_down)
         "What about annual leave?" 5 Demo.empty_world)
    = inr (error_result (ProviderError "model unavailable")).
Proof.
  refine (proj2 (proj2 (proj2 (proj2
    (query_never_raises (Demo.providers (inr Demo.one_hit) Demo.model_down)
       "What about annual leave?" 5 Demo.empty_world)) eq_refl))
    [0.5%float] Demo.one_hit _ _ _ eq_refl eq_refl eq_refl eq_refl).
Defined.

(** ** The attribution loop *)

Lemma attributions_length (metas : list Metadata) (ds : list float) (i : nat) :
  length metas ≤ length ds → length (attributions i metas ds) = length metas.
Proof.
  revert ds i. induction metas as [|m metas IH]; intros [|d ds] i Hlen; cbn in *;
    [done|done|lia|]. rewrite IH; [done|lia].
Qed.

Lemma attributions_lookup (metas : list Metadata) (ds : list float) (i k : nat)
    (m : Metadata) (d : float) :
  metas !! k = Some m → ds !! k = Some d →
  attributions i metas ds !! k = Some (attribution (i + k) m d).
Proof.
  revert ds i k. induction metas as [|m' metas IH]; intros [|d' ds] i [|k] Hm Hd;
    simplify_eq/=.
  - by rewrite Nat.add_0_r.
  - rewrite (IH ds (S i) k) by done. do 2 f_equal. lia.
Qed.

(** The loop succeeds when the distance row is long enough, leaves the
    world alone and appends one entry per metadata entry. *)
Lemma attribute_loop_run (results : QueryResults) (row : list float) :
  distances results !! 0 = Some row →
  ∀ (metas : list Metadata) (i : nat) (acc : list SourceAttribution) (w : World),
    i + length metas ≤ length row →
    attribute_loop results i metas acc w
      = (inr (acc ++ attributions i metas (drop i row)), w).
Proof.
  intros Hrow. induction metas as [|m metas IH]; intros i acc w Hlen.
  - cbn. by rewrite app_nil_r.
  - cbn [attribute_loop length] in *.
    destruct (row !! i) as [d|] eqn:Hd;
      [|apply lookup_ge_None in Hd; lia].
    unfold mbind at 1, py_bind at 1, subscript at 1. rewrite Hrow. cbn [mret py_ret].
    unfold mbind at 1, py_bind at 1, subscript at 1. rewrite Hd. cbn [mret py_ret].
    rewrite IH by lia. rewrite <- app_assoc. cbn [app].
    by rewrite (drop_S row d i Hd).
Qed.

(** The steps of [query] when every stage succeeds on at least one hit. *)
Lemma query_answered (P : Providers) (question : string) (n : Z) (w : World)
    (v : Embedding) (results : QueryResults) (doc : string) (docs : list string)
    (metas : list Metadata) (row : list float) (response : AIMessage) :
  is_casual question = false →
  embed_query P question = inr v →
  collection_query P (collection w) [v] n = inr results →
  documents results !! 0 = Some (doc :: docs) →
  metadatas results !! 0 = Some metas →
  distances results !! 0 = Some row →
  length metas ≤ length row →
  llm_invoke P (prompt_of (join (NL +:+ NL) (doc :: docs)) question) = inr response →
  query P question n w =
    (inr {| answer := content response; sources := attributions 0 metas row |},
     emit (EvLlmInvoke (prompt_of (join (NL +:+ NL) (doc :: docs)) question))
       (emit (EvIndexQuery [v] n) (emit (EvEmbedQuery question) w))).
Proof.
  intros Hcasual Hembed Hquery Hdocs Hmetas Hrow Hlen Hllm.
  unfold query, try_except.
  rewrite (query_body_retrieved P question n w v results) by done.
  unfold mbind at 1, py_bind at 1, subscript at 1. rewrite Hdocs.
  cbn [mret py_ret]. cbv zeta.
  unfold mbind at 1, py_bind at 1, call at 1. rewrite Hllm.
  unfold mbind at 1, py_bind at 1, subscript at 1. rewrite Hmetas.
  cbn [mret py_ret].
  unfold mbind at 1, py_bind at 1.
  rewrite (attribute_loop_run results row Hrow metas 0 []) by (cbn; lia).
  by rewrite drop_0.
Qed.

(** ** Source attribution *)

(** C2, as amended.  For a greeting the sources are empty.  For any other
    question, when the embedding and the index query succeed on a
    well-formed answer and, if there are hits, the model replies, [query]
    returns as many sources as the index returned hits. *)
Theorem sources_match_hits (P : Providers) (question : string) (n : Z) (w : World) :
  (is_casual question = true →
     ∃ r w', query P question n w = (inr r, w') ∧ sources r = [])
  ∧ (is_casual question = false →
     ∀ (v : Embedding) (results : QueryResults),
       embed_query P question = inr v →
       collection_query P (collection w) [v] n = inr results →
       well_formed results →
       (∀ docs, documents results !! 0 = Some docs → docs ≠ [] →
          ∃ response,
            llm_invoke P (prompt_of (join (NL +:+ NL) docs) question) = inr response) →
       ∃ r w', query P question n w = (inr r, w')
               ∧ length (sources r) = n_hits results).
Proof.
  split.
  - intros Hcasual. rewrite (query_casual P question n w Hcasual). eauto.
  - intros Hcasual v results Hembed Hquery (docs & metas & row & Hd & Hm & Hr & Hlm & Hlr) Hllm.
    unfold n_hits. rewrite Hd. cbn [default id]. destruct docs as [|doc docs].
    + rewrite (query_no_hits P question n w v results) by done. eauto.
    + destruct (Hllm (doc :: docs) Hd) as [response Hresp]; [done|].
      rewrite (query_answered P question n w v results doc docs metas row response)
        by (done || lia).
      do 2 eexists. split; [done|]. cbn [sources].
      rewrite attributions_length; lia.
Qed.

Lemma sources_match_hits_witness :
  ∃ r w',
    query (Demo.providers (inr Demo.one_hit) Demo.plain_reply)
      "What about annual leave?" 5 Demo.empty_world = (inr r, w')
    ∧ length (sources r) = n_hits Demo.one_hit.
Proof.
  apply (proj2 (sources_match_hits
                  (Demo.providers (inr Demo.one_hit) Demo.plain_reply)
                  "What about annual leave?" 5 Demo.empty_world)
           eq_refl [0.5%float] Demo.one_hit eq_refl eq_refl).
  - exists ["Annual leave is 21 days."],
      [ {[ "source" := MStr "leave.txt"; "chunk_id" := MInt 3 ]} ], [0.25%float].
    repeat split; reflexivity.
  - intros docs _ _. by eexists.
Defined.

(** The index returns one hit, the model call fails: the question is not a
    greeting, yet the result has no source for the hit. *)
Lemma sources_dropped_on_failure :
  let P := Demo.providers (inr Demo.one_hit) Demo.model_down in
  let question := "What about annual leave?" in
  is_casual question = false
  ∧ collection_query P (collection Demo.empty_world) [[0.5%float]] 5 = inr Demo.one_hit
  ∧ n_hits Demo.one_hit = 1
  ∧ ∃ r w', query P question 5 Demo.empty_world = (inr r, w')
            ∧ sources r = []
            ∧ length (sources r) ≠ n_hits Demo.one_hit.
Proof.
  cbv zeta. split; [reflexivity|]. split; [reflexivity|]. split; [reflexivity|].
  do 2 eexists. split; [vm_compute; reflexivity|]. split; [reflexivity|]. cbn. lia.
Qed.

(** C3.  In the result of a query that went through, the source entry of
    hit [i] carries the relevance score [1 - d], where [d] is the hit's
    distance, as the float subtraction gives it: at distance 1.5 the score
    is negative, at distance -0.5 it is above 1. *)
Theorem relevance_is_one_minus_distance :
  (∀ (P : Providers) (question : string) (n : Z) (w : World) (v : Embedding)
     (results : QueryResults) (doc : string) (docs : list string)
     (metas : list Metadata) (row : list float) (response : AIMessage),
     is_casual question = false →
     embed_query P question = inr v →
     collection_query P (collection w) [v] n = inr results →
     documents results !! 0 = Some (doc :: docs) →
     metadatas results !! 0 = Some metas →
     distances results !! 0 = Some row →
     length metas ≤ length row →
     llm_invoke P (prompt_of (join (NL +:+ NL) (doc :: docs)) question) = inr response →
     ∃ r w', query P question n w = (inr r, w')
       ∧ length (sources r) = length metas
       ∧ ∀ (i : nat) (m : Metadata) (d : float),
           metas !! i = Some m → row !! i = Some d →
           ∃ s, sources r !! i = Some s
                ∧ relevance_score s = PrimFloat.sub 1 d
                ∧ source s = default (MStr "Unknown") (m !! "source")
                ∧ chunk_id s = default (MInt (Z.of_nat i)) (m !! "chunk_id"))
  ∧ (∃ r w' s1 s2,
       query (Demo.providers (inr Demo.far_hits) Demo.plain_reply)
         "What about annual leave?" 5 Demo.empty_world = (inr r, w')
       ∧ sources r = [s1; s2]
       ∧ PrimFloat.ltb (relevance_score s1) 0 = true
       ∧ PrimFloat.ltb 1 (relevance_score s2) = true).
Proof.
  split.
  - intros P question n w v results doc docs metas row response
      Hcasual Hembed Hquery Hd Hm Hr Hlen Hllm.
    rewrite (query_answered P question n w v results doc docs metas row response)
      by done.
    do 2 eexists. split; [done|]. cbn [sources]. split.
    + by apply attributions_length.
    + intros i m d Hmi Hdi. exists (attribution i m d). split; [|done].
      by rewrite (attributions_lookup metas row 0 i m d).
  - do 4 eexists. split; [vm_compute; reflexivity|]. split; [reflexivity|]. split; reflexivity.
Qed.

Lemma relevance_is_one_minus_distance_witness :
  ∃ r w',
    query (Demo.providers (inr Demo.one_hit) Demo.plain_reply)
      "What about annual leave?" 5 Demo.empty_world = (inr r, w')
    ∧ length (sources r) = 1
    ∧ ∀ (i : nat) (m : Metadata) (d : float),
        [ ({[ "source" := MStr "leave.txt"; "chunk_id" := MInt 3 ]} : Metadata) ] !! i
          = Some m →
        [0.25%float] !! i = Some d →
        ∃ s, sources r !! i = Some s
             ∧ relevance_score s = PrimFloat.sub 1 d
             ∧ source s = default (MStr "Unknown") (m !! "source")
             ∧ chunk_id s = default (MInt (Z.of_nat i)) (m !! "chunk_id").
Proof.
  apply (proj1 relevance_is_one_minus_distance
           (Demo.providers (inr Demo.one_hit) Demo.plain_reply)
           "What about annual leave?" 5%Z Demo.empty_world [0.5%float] Demo.one_hit
           "Annual leave is 21 days." []
           [ {[ "source" := MStr "leave.txt"; "chunk_id" := MInt 3 ]} ] [0.25%float]
           {| content := "Employees get 21 days." |});
    first [reflexivity | cbn; lia].
Defined.

(** ** The prompt and the answer *)

(** The prompt is a fixed template around the context and the question. *)
Lemma prompt_template :
  ∃ head mid tail, ∀ context question,
    prompt_of context question = head +:+ context +:+ mid +:+ question +:+ tail.
Proof.
  exists (String.substring 0 586 (prompt_of "" "")).
  exists (NL +:+ NL +:+ "السؤال: ").
  exists (String.substring (586 + 16) 163 (prompt_of "" "")).
  intros context question. vm_compute. reflexivity.
Qed.

(** C9, as amended.  For a question that is not a greeting and has at least
    one hit, when every stage succeeds, the answer is the [content] of the
    model's reply as it came, with nothing trimmed; the prompt the model
    was called with is the template filled with the hit texts joined by
    blank lines and with the question as typed. *)
Theorem answer_is_model_output (P : Providers) (question : string) (n : Z) (w : World)
    (v : Embedding) (results : QueryResults) (doc : string) (docs : list string)
    (metas : list Metadata) (row : list float) (response : AIMessage) :
  let context := join (NL +:+ NL) (doc :: docs) in
  is_casual question = false →
  embed_query P question = inr v →
  collection_query P (collection w) [v] n = inr results →
  documents results !! 0 = Some (doc :: docs) →
  metadatas results !! 0 = Some metas →
  distances results !! 0 = Some row →
  length metas ≤ length row →
  llm_invoke P (prompt_of context question) = inr response →
  ∃ r w',
    query P question n w = (inr r, w')
    ∧ answer r = content response
    ∧ last (log w') = Some (EvLlmInvoke (prompt_of context question))
    ∧ ∃ head mid tail,
        prompt_of context question
          = head +:+ context +:+ mid +:+ question +:+ tail.
Proof.
  intros context Hcasual Hembed Hquery Hd Hm Hr Hlen Hllm.
  rewrite (query_answered P question n w v results doc docs metas row response)
    by done.
  do 2 eexists. split; [done|]. split; [done|]. split.
  - cbn [log emit]. by rewrite last_snoc.
  - destruct prompt_template as (head & mid & tail & Htemplate). eauto.
Qed.

Lemma answer_is_model_output_witness :
  ∃ r w',
    query (Demo.providers (inr Demo.one_hit) Demo.plain_reply)
      "What about annual leave?" 5 Demo.empty_world = (inr r, w')
    ∧ answer r = "Employees get 21 days."
    ∧ last (log w')
        = Some (EvLlmInvoke
                  (prompt_of (join (NL +:+ NL) ["Annual leave is 21 days."])
                     "What about annual leave?"))
    ∧ ∃ head mid tail,
        prompt_of (join (NL +:+ NL) ["Annual leave is 21 days."])
          "What about annual leave?"
          = head +:+ join (NL +:+ NL) ["Annual leave is 21 days."] +:+ mid
              +:+ "What about annual leave?" +:+ tail.
Proof.
  apply (answer_is_model_output
           (Demo.providers (inr Demo.one_hit) Demo.plain_reply)
           "What about annual leave?" 5 Demo.empty_world [0.5%float] Demo.one_hit
           "Annual leave is 21 days." []
           [ {[ "source" := MStr "leave.txt"; "chunk_id" := MInt 3 ]} ] [0.25%float]
           {| content := "Employees get 21 days." |});
    first [reflexivity | cbn; lia].
Defined.

(** A reply with leading blanks and a trailing newline is returned as it
    is: the answer differs from the stripped reply. *)
Lemma answer_not_trimmed :
  let P := Demo.providers (inr Demo.one_hit) Demo.padded_reply in
  let question := "What about annual leave?" in
  is_casual question = false
  ∧ n_hits Demo.one_hit = 1
  ∧ ∃ r w' response,
      query P question 5 Demo.empty_world = (inr r, w')
      ∧ llm_invoke P (prompt_of (join (NL +:+ NL) ["Annual leave is 21 days."]) question)
          = inr response
      ∧ answer r = content response
      ∧ strip (content response) = "Employees get 21 days."
      ∧ answer r ≠ strip (content response).
Proof.
  cbv zeta. split; [reflexivity|]. split; [reflexivity|].
  do 3 eexists. split; [vm_compute; reflexivity|]. split; [reflexivity|].
  split; [reflexivity|]. split; [reflexivity|].
  vm_compute. discriminate.
Qed.

(** ** Ingestion *)

Lemma make_ids_run (P : Providers) (filename : string) (n a : nat) (w : World) :
  make_ids P filename (seq a n) w =
    (inr ((λ k, chunk_id_of filename (a + k) (uuid4 P (drawn w + k))) <$> seq 0 n),
     set_drawn (drawn w + n) w).
Proof.
  revert a w. induction n as [|n IH]; intros a w.
  - destruct w. cbn. unfold set_drawn. cbn. by rewrite Nat.add_0_r.
  - cbn [seq make_ids].
    unfold mbind at 1, py_bind at 1, uuid4_call at 1.
    unfold mbind at 1, py_bind at 1. rewrite IH. cbn [mret py_ret].
    rewrite <- (fmap_S_seq 0 n), fmap_cons, <- list_fmap_compose.
    cbn [drawn set_drawn]. rewrite !Nat.add_0_r. unfold mret, py_ret.
    f_equal.
    + do 2 f_equal. apply list_fmap_ext. intros _ k _. cbn.
      by rewrite !Nat.add_succ_r.
    + unfold set_drawn. cbn. f_equal. lia.
Qed.

(** What [add_document] does, stage by stage. *)
Lemma add_document_cases (P : Providers) (content filename : string) (w : World) :
  let w1 := emit (EvSplit [content]) w in
  match create_documents P [content] with
  | inl e =>
      add_document P content filename w
        = (inl e, emit (EvPrint ("Error adding document: " +:+ str_exn e)) w1)
  | inr documents =>
      let texts := page_content <$> documents in
      let w2 := emit (EvEmbedDocuments texts) w1 in
      match embed_documents P texts with
      | inl e =>
          add_document P content filename w
            = (inl e, emit (EvPrint ("Error adding document: " +:+ str_exn e)) w2)
      | inr embeddings =>
          let b := ingest_batch P filename (drawn w) texts embeddings in
          let w3 := set_drawn (drawn w + length texts) w2 in
          match collection_add_error P (collection w) b with
          | Some e =>
              add_document P content filename w
                = (inl e,
                   emit (EvPrint ("Error adding document: " +:+ str_exn e))
                     (emit (EvIndexAdd b) w3))
          | None =>
              add_document P content filename w
                = (inr ("Added " +:+ pretty (length texts) +:+ " chunks from "
                          +:+ filename),
                   emit (EvIndexAdd b)
                     (set_collection (collection w ++ batch_records b) w3))
          end
      end
  end.
Proof.
  cbv zeta.
  destruct (create_documents P [content]) as [e|documents] eqn:Hsplit.
  { unfold add_document, try_except, add_document_body, mbind, py_bind, call.
    by rewrite Hsplit. }
  destruct (embed_documents P (page_content <$> documents)) as [e|embeddings] eqn:Hembed.
  { unfold add_document, try_except, add_document_body, mbind, py_bind, call.
    by rewrite Hsplit, Hembed. }
  destruct (collection_add_error P (collection w)
              (ingest_batch P filename (drawn w) (page_content <$> documents) embeddings))
    as [e|] eqn:Hadd;
    unfold add_document, try_except, add_document_body, mbind, py_bind, call;
    rewrite Hsplit, Hembed, make_ids_run;
    unfold collection_add; cbn [collection set_drawn emit drawn];
    change ((λ k, chunk_id_of filename (0 + k) (uuid4 P (drawn w + k)))
              <$> seq 0 (length (page_content <$> documents)))
      with (chunk_ids P filename (drawn w) (length (page_content <$> documents)));
    fold (ingest_batch P filename (drawn w) (page_content <$> documents) embeddings);
    by rewrite Hadd.
Qed.

(** C6.  When the embedding call of an ingestion fails, [add_document]
    raises that exception, the collection is as it was, and the log shows
    the split, the embedding attempt and the printed message, but no write
    to the index.  When the write is rejected, [add_document] raises the
    index's exception: no report is returned. *)
Theorem ingestion_failures (P : Providers) (content filename : string) (w : World)
    (docs : list Document) :
  create_documents P [content] = inr docs →
  (∀ e, embed_documents P (page_content <$> docs) = inl e →
     ∃ w', add_document P content filename w = (inl e, w')
           ∧ collection w' = collection w
           ∧ log w' = log w ++ [ EvSplit [content];
                                 EvEmbedDocuments (page_content <$> docs);
                                 EvPrint ("Error adding document: " +:+ str_exn e) ])
  ∧ (∀ embeddings e,
       embed_documents P (page_content <$> docs) = inr embeddings →
       collection_add_error P (collection w)
         (ingest_batch P filename (drawn w) (page_content <$> docs) embeddings) = Some e →
       ∃ w', add_document P content filename w = (inl e, w')).
Proof.
  intros Hsplit. pose proof (add_document_cases P content filename w) as Hcases.
  cbv zeta in Hcases. rewrite Hsplit in Hcases. split.
  - intros e Hembed. rewrite Hembed in Hcases. eexists. split; [exact Hcases|].
    split; [done|]. cbn [log emit]. by rewrite <- !app_assoc.
  - intros embeddings e Hembed Hadd. rewrite Hembed, Hadd in Hcases. eauto.
Qed.

(** With the embedding client down nothing reaches the index. *)
Lemma ingestion_failures_witness :
  ∃ w',
    add_document Demo.embedder_down "Leave policy." "hr.txt" Demo.empty_world
      = (inl (ProviderError "embedding unavailable"), w')
    ∧ collection w' = []
    ∧ log w' = [ EvSplit ["Leave policy."];
                 EvEmbedDocuments ["Leave policy."];
                 EvPrint "Error adding document: embedding unavailable" ].
Proof.
  exact (proj1 (ingestion_failures Demo.embedder_down "Leave policy." "hr.txt"
                  Demo.empty_world [ {| page_content := "Leave policy." |} ] eq_refl)
           (ProviderError "embedding unavailable") eq_refl).
Defined.

(** ** Chunk ids *)

Lemma pretty_N_go_free (x : N) (s : string) :
  free_of "_" s → free_of "_" (pretty_N_go x s).
Proof.
  revert s. induction (N.lt_wf_0 x) as [x _ IH]; intros s Hs.
  destruct (decide (x = 0)%N) as [->|Hx]; [by rewrite pretty_N_go_0|].
  rewrite pretty_N_go_step by lia. apply IH.
  - apply N.div_lt; lia.
  - split; [|done]. unfold pretty_N_char. by repeat case_match.
Qed.

(** The decimal text of an index has no underscore. *)
Lemma pretty_nat_free (i : nat) : free_of "_" (pretty i).
Proof.
  unfold pretty, pretty_nat, pretty, pretty_N.
  case_decide; [by split|]. by apply pretty_N_go_free.
Qed.

(** Two texts cut at their first [c] agree on both sides of the cut. *)
Lemma app_cut (c : ascii) (a b x y : string) :
  free_of c a → free_of c b →
  a +:+ String c x = b +:+ String c y → a = b ∧ x = y.
Proof.
  revert b. induction a as [|p a IH]; intros [|q b] Ha Hb Heq;
    rewrite ?app_cons_str in Heq; cbn in Ha, Hb.
  - by injection Heq.
  - injection Heq as Hc _. by destruct Hb as [[] _].
  - injection Heq as Hc _. by destruct Ha as [[] _].
  - injection Heq as -> Heq. destruct Ha as [_ Ha], Hb as [_ Hb].
    by destruct (IH b Ha Hb Heq) as [-> ->].
Qed.

(** Two texts with equally long tails agree on heads and tails. *)
Lemma app_same_tail (a b x y : string) :
  String.length x = String.length y → a +:+ x = b +:+ y → a = b ∧ x = y.
Proof.
  intros Hlen. revert b. induction a as [|p a IH]; intros [|q b] Heq;
    rewrite ?app_cons_str in Heq.
  - done.
  - change ("" +:+ x) with x in Heq. apply (f_equal String.length) in Heq.
    cbn in Heq. rewrite length_app_str in Heq. lia.
  - change ("" +:+ y) with y in Heq. apply (f_equal String.length) in Heq.
    cbn in Heq. rewrite length_app_str in Heq. lia.
  - injection Heq as -> Heq. by destruct (IH b Heq) as [-> ->].
Qed.

(** Within one file name, the id fixes the chunk index, whatever the UUIDs. *)
Lemma chunk_id_of_index (filename : string) (i j : nat) (u u' : string) :
  chunk_id_of filename i u = chunk_id_of filename j u' → i = j.
Proof.
  unfold chunk_id_of. intros Heq. apply (inj (String.app filename)) in Heq.
  injection Heq as Heq.
  apply (app_cut "_" (pretty i) (pretty j) u u') in Heq as [Heq _];
    auto using pretty_nat_free.
  by apply (inj pretty).
Qed.

(** An id fixes its UUID among UUIDs of one length. *)
Lemma chunk_id_of_uuid (f f' : string) (i j : nat) (u u' : string) :
  String.length u = String.length u' →
  chunk_id_of f i u = chunk_id_of f' j u' → u = u'.
Proof.
  unfold chunk_id_of. intros Hlen Heq.
  change (f +:+ "_" +:+ pretty i +:+ "_" +:+ u)
    with (f +:+ String "_" (pretty i +:+ String "_" u)) in Heq.
  change (f' +:+ "_" +:+ pretty j +:+ "_" +:+ u')
    with (f' +:+ String "_" (pretty j +:+ String "_" u')) in Heq.
  assert (∀ g k t : string, g +:+ String "_" (k +:+ String "_" t)
                            = (g +:+ String "_" (k +:+ "_")) +:+ t) as Hshape.
  { intros g k t. rewrite app_assoc_str, app_cons_str. do 2 f_equal.
    by rewrite app_assoc_str. }
  rewrite (Hshape f (pretty i) u), (Hshape f' (pretty j) u') in Heq.
  by apply app_same_tail in Heq as [_ ?].
Qed.

(** The ids of one call are pairwise distinct. *)
Lemma chunk_ids_NoDup (P : Providers) (filename : string) (first n : nat) :
  NoDup (chunk_ids P filename first n).
Proof.
  unfold chunk_ids. apply NoDup_fmap_2_strong; [|apply NoDup_seq].
  intros i j _ _ Heq. by apply chunk_id_of_index in Heq.
Qed.

(** A write stores a leading part of the ids it was given. *)
Lemma records_of_ids (ids : list string) (embeddings : list Embedding)
    (texts : list string) (metas : list Metadata) :
  rec_id <$> records_of ids embeddings texts metas `prefix_of` ids.
Proof.
  revert embeddings texts metas.
  induction ids as [|i ids IH]; intros [|e es] [|t ts] [|m ms]; cbn;
    try apply prefix_nil.
  by apply prefix_cons.
Qed.

(** One call appends a leading part of its ids and draws one UUID per id. *)
Lemma add_document_step (P : Providers) (content filename : string) (w : World) :
  let w' := snd (add_document P content filename w) in
  drawn w ≤ drawn w'
  ∧ ∃ new, stored_ids w' = stored_ids w ++ new
           ∧ new `prefix_of` chunk_ids P filename (drawn w) (drawn w' - drawn w).
Proof.
  pose proof (add_document_cases P content filename w) as Hcases. cbv zeta in *.
  destruct (create_documents P [content]) as [e|documents].
  { rewrite Hcases. cbn. split; [done|]. exists []. split; [by rewrite app_nil_r|].
    apply prefix_nil. }
  destruct (embed_documents P (page_content <$> documents)) as [e|embeddings].
  { rewrite Hcases. cbn. split; [done|]. exists []. split; [by rewrite app_nil_r|].
    apply prefix_nil. }
  destruct (collection_add_error P (collection w) _) as [e|]; rewrite Hcases; cbn.
  - split; [lia|]. exists []. split; [by rewrite app_nil_r|]. apply prefix_nil.
  - split; [lia|].
    exists (rec_id <$> batch_records
              (ingest_batch P filename (drawn w) (page_content <$> documents) embeddings)).
    split; [unfold stored_ids; cbn; by rewrite fmap_app|].
    replace (drawn w + length (page_content <$> documents) - drawn w)
      with (length (page_content <$> documents)) by lia.
    apply records_of_ids.
Qed.

Section Freshness.

Context (P : Providers) (N : nat).
Hypothesis uuid_distinct : NoDup (uuid4 P <$> seq 0 N).
Hypothesis uuid_length : Forall (λ u, String.length u = 36) (uuid4 P <$> seq 0 N).

Lemma uuid4_inj (j k : nat) : j < N → k < N → uuid4 P j = uuid4 P k → j = k.
Proof.
  intros Hj Hk Heq. apply (proj1 (NoDup_alt _) uuid_distinct j k (uuid4 P j)).
  - rewrite list_lookup_fmap, lookup_seq_lt; done.
  - rewrite list_lookup_fmap, lookup_seq_lt; [by rewrite Heq|done].
Qed.

Lemma uuid4_length (k : nat) : k < N → String.length (uuid4 P k) = 36.
Proof.
  intros Hk. apply (proj1 (Forall_lookup _ _) uuid_length k).
  by rewrite list_lookup_fmap, lookup_seq_lt.
Qed.

Lemma add_document_fresh (content filename : string) (w : World) :
  drawn (snd (add_document P content filename w)) ≤ N →
  ids_fresh P w → ids_fresh P (snd (add_document P content filename w)).
Proof.
  intros Hbound [Hnodup Hdrawn]. unfold ids_fresh.
  destruct (add_document_step P content filename w) as (Hmono & new & -> & [rest Hids]).
  set (w' := snd (add_document P content filename w)) in *.
  assert (∀ x, x ∈ new → ∃ j, drawn w + j < drawn w'
                              ∧ x = chunk_id_of filename j (uuid4 P (drawn w + j)))
    as Hnew.
  { intros x Hx.
    assert (x ∈ chunk_ids P filename (drawn w) (drawn w' - drawn w)) as Hin
      by (rewrite Hids; set_solver).
    apply list_elem_of_fmap in Hin as (j & -> & Hj%elem_of_seq). exists j.
    split; [lia|done]. }
  split.
  - apply NoDup_app. split; [done|]. split.
    + intros x Hold Hfresh.
      apply (proj1 (Forall_forall _ _) Hdrawn) in Hold as (f & i & k & Hk & ->).
      apply Hnew in Hfresh as (j & Hj & Heq).
      apply chunk_id_of_uuid in Heq.
      * apply uuid4_inj in Heq; lia.
      * rewrite !uuid4_length; lia.
    + pose proof (chunk_ids_NoDup P filename (drawn w) (drawn w' - drawn w)) as Hall.
      rewrite Hids in Hall. by apply NoDup_app in Hall as [? _].
  - apply Forall_app. split.
    + eapply Forall_impl; [exact Hdrawn|].
      intros x (f & i & k & Hk & ->). exists f, i, k. split; [lia|done].
    + apply Forall_forall. intros x (j & Hj & ->)%Hnew. by exists filename, j, (drawn w + j).
Qed.

Lemma ingest_all_drawn (uploads : list (string * string)) (w : World) :
  drawn w ≤ drawn (ingest_all P uploads w).
Proof.
  revert w. induction uploads as [|[content filename] uploads IH]; intros w; [done|].
  cbn [ingest_all]. etrans; [|apply IH].
  by destruct (add_document_step P content filename w) as [? _].
Qed.

Lemma ingest_all_fresh (uploads : list (string * string)) (w : World) :
  drawn (ingest_all P uploads w) ≤ N →
  ids_fresh P w → ids_fresh P (ingest_all P uploads w).
Proof.
  revert w. induction uploads as [|[content filename] uploads IH]; intros w Hbound Hw;
    [done|].
  cbn [ingest_all] in *. apply IH; [done|]. apply add_document_fresh; [|done].
  etrans; [apply ingest_all_drawn|exact Hbound].
Qed.

End Freshness.

(** C8.  The ids one ingestion call commits are pairwise distinct, whatever
    [uuid4] returns.  Over any series of uploads into an empty collection,
    repeated file names included, all committed ids are pairwise distinct,
    provided the UUIDs drawn are 36 characters long and pairwise distinct. *)
Theorem chunk_ids_unique (P : Providers) :
  (∀ (content filename : string) (w : World),
     ∃ new,
       stored_ids (snd (add_document P content filename w)) = stored_ids w ++ new
       ∧ NoDup new)
  ∧ (∀ (uploads : list (string * string)) (w : World),
       collection w = [] →
       NoDup (uuid4 P <$> seq 0 (drawn (ingest_all P uploads w))) →
       Forall (λ u, String.length u = 36)
         (uuid4 P <$> seq 0 (drawn (ingest_all P uploads w))) →
       NoDup (stored_ids (ingest_all P uploads w))).
Proof.
  split.
  - intros content filename w.
    destruct (add_document_step P content filename w) as (_ & new & Hnew & [rest Hids]).
    exists new. split; [done|].
    pose proof (chunk_ids_NoDup P filename (drawn w)
                  (drawn (snd (add_document P content filename w)) - drawn w)) as Hall.
    rewrite Hids in Hall. by apply NoDup_app in Hall as [? _].
  - intros uploads w Hempty Hdistinct Hlength.
    apply (ingest_all_fresh P _ Hdistinct Hlength uploads w); [done|].
    unfold ids_fresh, stored_ids. rewrite Hempty. split; [apply NoDup_nil_2|done].
Qed.

(** The same text uploaded twice under one file name: two stored chunks,
    two ids. *)
Lemma chunk_ids_unique_witness :
  let uploads := [ ("Leave policy.", "hr.txt"); ("Leave policy.", "hr.txt") ] in
  let w' := ingest_all (Demo.providers (inr Demo.no_hits) Demo.plain_reply)
              uploads Demo.empty_world in
  length (stored_ids w') = 2 ∧ NoDup (stored_ids w').
Proof.
  cbv zeta. split; [reflexivity|].
  apply (proj2 (chunk_ids_unique (Demo.providers (inr Demo.no_hits) Demo.plain_reply))
           [ ("Leave policy.", "hr.txt"); ("Leave policy.", "hr.txt") ]
           Demo.empty_world eq_refl).
  - apply (bool_decide_unpack _). vm_compute. exact I.
  - apply (bool_decide_unpack _). vm_compute. exact I.
Defined.

(** ** What a query leaves alone *)

Lemma attribute_loop_world (results : QueryResults) (metas : list Metadata) (i : nat)
    (acc : list SourceAttribution) (w : World) :
  snd (attribute_loop results i metas acc w) = w.
Proof.
  revert i acc. induction metas as [|m metas IH]; intros i acc; [done|].
  cbn [attribute_loop]. unfold mbind, py_bind, subscript.
  destruct (distances results !! 0) as [row|]; [|done]. cbn [mret py_ret].
  destruct (row !! i) as [d|]; [|done]. cbn [mret py_ret]. apply IH.
Qed.

(** Closes an equation between worlds that differ in how the log is
    bracketed. *)
Ltac same_world := unfold emit; cbn; rewrite <- ?app_assoc; reflexivity.

Lemma query_body_world (P : Providers) (question : string) (n : Z) (w : World) :
  ∃ events,
    snd (query_body P question n w)
      = {| collection := collection w; drawn := drawn w; log := log w ++ events |}
    ∧ query_stages P question n w events.
Proof.
  unfold query_stages, query_body. destruct (is_casual question) eqn:Hcasual.
  { exists []. split; [destruct w; cbn; by rewrite app_nil_r|auto]. }
  unfold mbind at 1, py_bind at 1, call at 1.
  destruct (embed_query P question) as [e|v] eqn:Hembed.
  { exists [EvEmbedQuery question]. split; [done|auto]. }
  unfold mbind at 1, py_bind at 1, call at 1. cbn [collection emit].
  destruct (collection_query P (collection w) [v] n) as [e|results] eqn:Hquery.
  { exists [EvEmbedQuery question; EvIndexQuery [v] n].
    split; [same_world|]. right. split; [done|]. right. eauto. }
  unfold mbind at 1, py_bind at 1, subscript at 1.
  destruct (documents results !! 0) as [[|doc docs]|] eqn:Hdocs; cbn [mret py_ret raise].
  1, 3: exists [EvEmbedQuery question; EvIndexQuery [v] n];
        (split; [same_world|]); right; (split; [done|]); right; eauto.
  cbv zeta. unfold mbind at 1, py_bind at 1, call at 1.
  exists [EvEmbedQuery question; EvIndexQuery [v] n;
          EvLlmInvoke (prompt_of (join (NL +:+ NL) (doc :: docs)) question)].
  split; [|right; split; [done|]; right; exists v; split; [done|]; right; eauto 10].
  destruct (llm_invoke P _) as [e|response]; [same_world|].
  unfold mbind at 1, py_bind at 1, subscript at 1.
  destruct (metadatas results !! 0) as [metas|]; cbn [mret py_ret raise];
    [|same_world].
  unfold mbind at 1, py_bind at 1.
  match goal with |- context [attribute_loop ?r ?i ?m ?a ?w0] =>
    pose proof (attribute_loop_world r m i a w0) as Hw;
    destruct (attribute_loop r i m a w0) as [[e|srcs] w1] end;
    cbn in Hw; subst w1; same_world.
Qed.

(** Splits a membership in an explicit list of events into its cases. *)
Ltac in_events H :=
  repeat (apply elem_of_cons in H as [H|H]; [simplify_eq|]);
  try (by apply elem_of_nil in H).

(** [query] adds at most the message of its handler. *)
Lemma query_world (P : Providers) (question : string) (n : Z) (w : World) :
  ∃ events tail,
    snd (query P question n w)
      = {| collection := collection w; drawn := drawn w;
           log := log w ++ events ++ tail |}
    ∧ query_stages P question n w events
    ∧ (tail = [] ∨ ∃ line, tail = [EvPrint line]).
Proof.
  destruct (query_body_world P question n w) as (events & Hworld & Hstages).
  unfold query, try_except.
  destruct (query_body P question n w) as [[e|r] w'] eqn:Hbody; cbn in Hworld; subst w'.
  - exists events, [EvPrint ("Error querying RAG system: " +:+ str_exn e)].
    split; [unfold mbind, py_bind, print, call; same_world|]. eauto.
  - exists events, []. split; [by rewrite app_nil_r|]. auto.
Qed.

(** X1.  [query] only reads: for every question and every behaviour of the
    collaborators, the stored collection and the count of drawn UUIDs are
    after the call what they were before. *)
Theorem query_reads_only (P : Providers) (question : string) (n : Z) (w : World) :
  collection (snd (query P question n w)) = collection w
  ∧ drawn (snd (query P question n w)) = drawn w.
Proof.
  destruct (query_world P question n w) as (events & tail & -> & _). done.
Qed.

(** X2.  The outside calls of one [query]: no call is made twice; the text
    embedded is the question as typed; the index is asked once, with that
    one embedding and the [n_results] given; the model is called only when
    the index returned at least one document, with the prompt built from
    them; nothing is split, embedded for storage or written. *)
Theorem query_outside_calls (P : Providers) (question : string) (n : Z) (w : World) :
  ∃ events,
    log (snd (query P question n w)) = log w ++ events
    ∧ NoDup events
    ∧ (∀ text, EvEmbedQuery text ∈ events →
         text = question ∧ is_casual question = false)
    ∧ (∀ embs k, EvIndexQuery embs k ∈ events →
         k = n ∧ ∃ v, embed_query P question = inr v ∧ embs = [v])
    ∧ (∀ prompt, EvLlmInvoke prompt ∈ events →
         ∃ v results doc docs,
           embed_query P question = inr v
           ∧ collection_query P (collection w) [v] n = inr results
           ∧ documents results !! 0 = Some (doc :: docs)
           ∧ prompt = prompt_of (join (NL +:+ NL) (doc :: docs)) question)
    ∧ (∀ ev, ev ∈ events →
         match ev with
         | EvSplit _ | EvEmbedDocuments _ | EvIndexAdd _ => False
         | _ => True
         end).
Proof.
  destruct (query_world P question n w) as (events & tail & -> & Hstages & Htail).
  exists (events ++ tail). split; [done|].
  assert (∃ lines, tail = EvPrint <$> lines ∧ length lines ≤ 1) as (lines & -> & Hlines).
  { destruct Htail as [->|[line ->]]; [exists []|exists [line]]; (split; [done|cbn; lia]). }
  destruct lines as [|line [|? ?]]; [| |cbn in Hlines; lia]; cbn [fmap list_fmap];
    destruct Hstages as [->|[Hcasual [->|(v & Hembed & [->|(results & doc & docs & Hq & Hd & ->)])]]];
    cbn [app];
    (split; [repeat (apply NoDup_cons; split; [intros Hin; in_events Hin|]);
             apply NoDup_nil_2|]);
    (split; [|split; [|split]];
       [intros text Hin|intros embs k Hin|intros prompt Hin|intros ev Hin]);
    in_events Hin; eauto 10.
Qed.

(** ** What a successful ingestion stores *)

Lemma records_of_length (ids : list string) (embeddings : list Embedding)
    (texts : list string) (metas : list Metadata) (n : nat) :
  length ids = n → length embeddings = n → length texts = n → length metas = n →
  length (records_of ids embeddings texts metas) = n.
Proof.
  revert ids embeddings texts metas.
  induction n as [|n IH]; intros [|i ids] [|e es] [|t ts] [|m ms] ????;
    simplify_eq/=; [done|]. f_equal. by apply IH.
Qed.

Lemma records_of_lookup (ids : list string) (embeddings : list Embedding)
    (texts : list string) (metas : list Metadata) (k : nat)
    (i : string) (e : Embedding) (t : string) (m : Metadata) :
  ids !! k = Some i → embeddings !! k = Some e → texts !! k = Some t →
  metas !! k = Some m →
  records_of ids embeddings texts metas !! k
    = Some {| rec_id := i; rec_embedding := e; rec_document := t; rec_metadata := m |}.
Proof.
  revert ids embeddings texts metas.
  induction k as [|k IH]; intros [|i' ids] [|e' es] [|t' ts] [|m' ms] ????;
    simplify_eq/=; [done|]. by apply IH.
Qed.

Lemma chunk_ids_lookup (P : Providers) (filename : string) (first n i : nat) :
  i < n →
  chunk_ids P filename first n !! i
    = Some (chunk_id_of filename i (uuid4 P (first + i))).
Proof.
  intros Hi. unfold chunk_ids. by rewrite list_lookup_fmap, lookup_seq_lt.
Qed.

Lemma chunk_metadatas_lookup (filename : string) (texts : list string) (i : nat)
    (text : string) :
  texts !! i = Some text →
  chunk_metadatas filename texts !! i
    = Some {[ "source" := MStr filename;
              "chunk_id" := MInt (Z.of_nat i);
              "content_length" := MInt (Z.of_nat (len text)) ]}.
Proof.
  intros Htext. unfold chunk_metadatas. by rewrite list_lookup_imap, Htext.
Qed.

(** X3.  When splitting, embedding and the write succeed and the embedding
    client returns one vector per chunk, [add_document] reports
    "Added n chunks from filename", draws [n] UUIDs and appends exactly [n]
    records to the collection, in chunk order: record [i] carries the id
    built from the file name, [i] and the UUID drawn for it, the chunk's
    text and vector, and the metadata [source], [chunk_id] and
    [content_length] (the chunk's length in code points). *)
Theorem add_document_stores (P : Providers) (content filename : string) (w : World)
    (docs : list Document) (embeddings : list Embedding) :
  create_documents P [content] = inr docs →
  embed_documents P (page_content <$> docs) = inr embeddings →
  length embeddings = length docs →
  collection_add_error P (collection w)
    (ingest_batch P filename (drawn w) (page_content <$> docs) embeddings) = None →
  ∃ w' new,
    add_document P content filename w
      = (inr ("Added " +:+ pretty (length docs) +:+ " chunks from " +:+ filename), w')
    ∧ drawn w' = drawn w + length docs
    ∧ collection w' = collection w ++ new
    ∧ length new = length docs
    ∧ ∀ (i : nat) (doc : Document) (emb : Embedding),
        docs !! i = Some doc → embeddings !! i = Some emb →
        new !! i
          = Some {| rec_id := chunk_id_of filename i (uuid4 P (drawn w + i));
                    rec_embedding := emb;
                    rec_document := page_content doc;
                    rec_metadata :=
                      {[ "source" := MStr filename;
                         "chunk_id" := MInt (Z.of_nat i);
                         "content_length" :=
                           MInt (Z.of_nat (len (page_content doc))) ]} |}.
Proof.
  intros Hsplit Hembed Hlen Hadd.
  pose proof (add_document_cases P content filename w) as Hcases. cbv zeta in Hcases.
  rewrite Hsplit, Hembed, Hadd in Hcases. rewrite length_fmap in Hcases.
  eexists _, (batch_records
                (ingest_batch P filename (drawn w) (page_content <$> docs) embeddings)).
  split; [exact Hcases|]. split; [done|]. split; [done|]. split.
  - unfold batch_records, ingest_batch. cbn.
    apply records_of_length; unfold chunk_ids, chunk_metadatas;
      rewrite ?length_fmap, ?length_imap, ?length_seq, ?length_fmap; done.
  - intros i doc emb Hdoc Hemb. unfold batch_records, ingest_batch. cbn.
    apply records_of_lookup; [| done | by rewrite list_lookup_fmap, Hdoc |].
    + rewrite length_fmap. apply chunk_ids_lookup. by eapply lookup_lt_Some.
    + apply chunk_metadatas_lookup. by rewrite list_lookup_fmap, Hdoc.
Qed.

Lemma add_document_stores_witness :
  ∃ w' new,
    add_document (Demo.providers (inr Demo.no_hits) Demo.plain_reply)
      "Leave policy." "hr.txt" Demo.empty_world
      = (inr "Added 1 chunks from hr.txt", w')
    ∧ drawn w' = 1
    ∧ collection w' = new
    ∧ length new = 1
    ∧ ∀ (i : nat) (doc : Document) (emb : Embedding),
        [ {| page_content := "Leave policy." |} ] !! i = Some doc →
        [ [0.5%float] ] !! i = Some emb →
        new !! i
          = Some {| rec_id := chunk_id_of "hr.txt" i (Demo.uuid_text (0 + i));
                    rec_embedding := emb;
                    rec_document := page_content doc;
                    rec_metadata :=
                      {[ "source" := MStr "hr.txt";
                         "chunk_id" := MInt (Z.of_nat i);
                         "content_length" :=
                           MInt (Z.of_nat (len (page_content doc))) ]} |}.
Proof.
  exact (add_document_stores (Demo.providers (inr Demo.no_hits) Demo.plain_reply)
           "Leave policy." "hr.txt" Demo.empty_world
           [ {| page_content := "Leave policy." |} ] [ [0.5%float] ]
           eq_refl eq_refl eq_refl eq_refl).
Defined.

(** X4.  A hit on a chunk that [add_document] stored is attributed to the
    file name it was uploaded under and to its chunk index within that
    upload, whatever its rank among the hits: the defaults ['Unknown'] and
    the rank are not used for it. *)
Theorem ingested_chunk_attribution (P : Providers) (question : string) (n : Z)
    (w : World) (v : Embedding) (results : QueryResults) (doc : string)
    (docs : list string) (metas : list Metadata) (row : list float)
    (response : AIMessage) :
  is_casual question = false →
  embed_query P question = inr v →
  collection_query P (collection w) [v] n = inr results →
  documents results !! 0 = Some (doc :: docs) →
  metadatas results !! 0 = Some metas →
  distances results !! 0 = Some row →
  length metas ≤ length row →
  llm_invoke P (prompt_of (join (NL +:+ NL) (doc :: docs)) question) = inr response →
  ∃ r w',
    query P question n w = (inr r, w')
    ∧ ∀ (k i : nat) (d : float) (filename text : string) (texts : list string),
        texts !! i = Some text →
        metas !! k = chunk_metadatas filename texts !! i →
        row !! k = Some d →
        sources r !! k
          = Some {| source := MStr filename;
                    chunk_id := MInt (Z.of_nat i);
                    relevance_score := PrimFloat.sub 1 d |}.
Proof.
  intros Hcasual Hembed Hquery Hd Hm Hr Hlen Hllm.
  rewrite (query_answered P question n w v results doc docs metas row response)
    by done.
  do 2 eexists. split; [done|]. cbn [sources].
  intros k i d filename text texts Htext Hmeta Hrow.
  rewrite (chunk_metadatas_lookup filename texts i text Htext) in Hmeta.
  rewrite (attributions_lookup metas row 0 k _ d Hmeta Hrow).
  unfold attribution. by simplify_map_eq.
Qed.

Lemma ingested_chunk_attribution_witness :
  ∃ r w',
    query (Demo.providers (inr Samples.hr_hit) Demo.plain_reply)
      "What about annual leave?" 5 Demo.empty_world = (inr r, w')
    ∧ sources r !! 0
        = Some {| source := MStr "hr.txt";
                  chunk_id := MInt 0;
                  relevance_score := PrimFloat.sub 1 0.25 |}.
Proof.
  destruct (ingested_chunk_attribution
              (Demo.providers (inr Samples.hr_hit) Demo.plain_reply)
              "What about annual leave?" 5 Demo.empty_world [0.5%float]
              Samples.hr_hit "Leave policy." []
              (chunk_metadatas "hr.txt" ["Leave policy."]) [0.25%float]
              {| content := "Employees get 21 days." |}
              eq_refl eq_refl eq_refl eq_refl eq_refl eq_refl (le_n 1) eq_refl)
    as (r & w' & Hquery & Hsources).
  exists r, w'. split; [exact Hquery|].
  exact (Hsources 0 0 0.25%float "hr.txt" "Leave policy." ["Leave policy."]
           eq_refl eq_refl eq_refl).
Defined.

(** ** Listing the stored documents *)

Lemma count_source_nil (metadata : Metadata) :
  count_source [] metadata
    = [ (source_of metadata, {| name := source_of metadata; chunks := 1 |}) ].
Proof. reflexivity. Qed.

(** The loop turn, read along the dictionary: the first key equal to the
    source is bumped, and a source that meets no key is appended. *)
Lemma count_source_cons (k : MetaValue) (e : DocumentEntry) (d : DocumentDict)
    (metadata : Metadata) :
  count_source ((k, e) :: d) metadata
    = if py_eq k (source_of metadata)
      then (k, {| name := name e; chunks := chunks e + 1 |}) :: d
      else (k, e) :: count_source d metadata.
Proof.
  unfold count_source. cbn [dict_index].
  destruct (py_eq k (source_of metadata)); [done|].
  by destruct (dict_index (source_of metadata) d).
Qed.

Lemma py_eq_str (a b : string) : py_eq (MStr a) (MStr b) = true ↔ a = b.
Proof. apply String.eqb_eq. Qed.

Lemma total_chunks_count_source (d : DocumentDict) (metadata : Metadata) :
  total_chunks (count_source d metadata).*2 = (total_chunks d.*2 + 1)%Z.
Proof.
  induction d as [|[k e] d IH]; [done|]. rewrite count_source_cons.
  unfold total_chunks in *.
  destruct (py_eq k (source_of metadata)); cbn in *; lia.
Qed.

Lemma positive_chunks_count_source (d : DocumentDict) (metadata : Metadata) :
  Forall (λ entry, (1 ≤ chunks entry)%Z) d.*2 →
  Forall (λ entry, (1 ≤ chunks entry)%Z) (count_source d metadata).*2.
Proof.
  induction d as [|[k e] d IH]; intros Hd.
  - by repeat constructor.
  - rewrite count_source_cons. apply Forall_cons in Hd as [He Hd].
    destruct (py_eq k (source_of metadata)); cbn in *; constructor; auto; cbn; lia.
Qed.

Lemma named_by_key_count_source (d : DocumentDict) (metadata : Metadata) :
  named_by_key d → named_by_key (count_source d metadata).
Proof.
  unfold named_by_key. induction d as [|[k e] d IH]; intros Hd.
  - by repeat constructor.
  - rewrite count_source_cons. apply Forall_cons in Hd as [He Hd].
    destruct (py_eq k (source_of metadata)); constructor; auto.
Qed.

(** The count listed under a string grows by one exactly when the source
    is that string. *)
Lemma listed_chunks_count_source (d : DocumentDict) (metadata : Metadata)
    (f g : string) :
  named_by_key d → source_of metadata = MStr g →
  listed_chunks (MStr f) (count_source d metadata).*2
    = (listed_chunks (MStr f) d.*2 + (if String.eqb g f then 1 else 0))%Z.
Proof.
  intros Hd Hg. induction d as [|[k e] d IH].
  - rewrite count_source_nil, Hg. cbn. destruct (String.eqb g f); lia.
  - apply Forall_cons in Hd as [He Hd]. cbn in He. rewrite count_source_cons, Hg.
    destruct (py_eq k (MStr g)) eqn:Hkg; cbn [fmap list_fmap snd listed_chunks name chunks];
      rewrite He.
    + destruct k as [a| | |]; try discriminate Hkg. apply py_eq_str in Hkg as ->.
      change (py_eq (MStr g) (MStr f)) with (String.eqb g f).
      destruct (String.eqb g f); lia.
    + destruct (py_eq k (MStr f)) eqn:Hkf; [|by apply IH].
      destruct k as [a| | |]; try discriminate Hkf. apply py_eq_str in Hkf as ->.
      change (py_eq (MStr f) (MStr g)) with (String.eqb f g) in Hkg.
      rewrite String.eqb_sym, Hkg. lia.
Qed.

Lemma count_source_keys (d : DocumentDict) (metadata : Metadata) (x : MetaValue) :
  x ∈ (count_source d metadata).*1 → x ∈ d.*1 ∨ x = source_of metadata.
Proof.
  induction d as [|[k e] d IH].
  - rewrite count_source_nil. cbn. intros Hx. in_events Hx. by right.
  - rewrite count_source_cons. destruct (py_eq k (source_of metadata)); cbn.
    + by left.
    + intros [->|Hx]%elem_of_cons; [left; by left|].
      destruct (IH Hx) as [?|?]; [left; by right|by right].
Qed.

(** String keys stay pairwise distinct. *)
Lemma string_keys_count_source (d : DocumentDict) (metadata : Metadata) :
  Forall (λ k, ∃ f, k = MStr f) d.*1 ∧ NoDup d.*1 →
  (∃ g, source_of metadata = MStr g) →
  Forall (λ k, ∃ f, k = MStr f) (count_source d metadata).*1
  ∧ NoDup (count_source d metadata).*1.
Proof.
  intros [Hstr Hnodup] [g Hg]. induction d as [|[k e] d IH].
  - rewrite count_source_nil, Hg. cbn. split; [by repeat econstructor|].
    apply NoDup_singleton.
  - cbn in Hstr, Hnodup. apply Forall_cons in Hstr as [[a ->] Hstr].
    apply NoDup_cons in Hnodup as [Hfresh Hnodup].
    destruct (IH Hstr Hnodup) as [IHstr IHnodup].
    rewrite count_source_cons, Hg.
    destruct (py_eq (MStr a) (MStr g)) eqn:Hag; cbn.
    + split; [constructor; eauto|by apply NoDup_cons].
    + split; [constructor; eauto|]. apply NoDup_cons. split; [|done].
      intros [Hin|Heq]%count_source_keys; [done|].
      rewrite Hg in Heq. injection Heq as ->.
      by rewrite (proj2 (py_eq_str g g)) in Hag.
Qed.

Lemma count_from_snoc (f : string) (metas : list Metadata) (metadata : Metadata) :
  count_from f (metas ++ [metadata])
    = count_from f metas + (if has_source f metadata then 1 else 0).
Proof.
  unfold count_from. rewrite filter_app, length_app. f_equal.
  rewrite filter_cons, filter_nil. by destruct (has_source f metadata); case_decide.
Qed.

(** The dictionary after the loop over [metas]. *)
Lemma foldl_count_source (metas : list Metadata) :
  let d := foldl count_source [] metas in
  named_by_key d
  ∧ total_chunks d.*2 = Z.of_nat (length metas)
  ∧ Forall (λ entry, (1 ≤ chunks entry)%Z) d.*2
  ∧ (string_sources metas →
     Forall (λ k, ∃ f, k = MStr f ∧ 1 ≤ count_from f metas) d.*1
     ∧ NoDup d.*1
     ∧ ∀ f, listed_chunks (MStr f) d.*2 = Z.of_nat (count_from f metas)).
Proof.
  cbv zeta. induction metas as [|metadata metas IH] using rev_ind.
  - cbn. repeat split; try constructor; done.
  - rewrite foldl_app. cbn [foldl].
    destruct IH as (Hnamed & Htotal & Hpos & Hstr).
    split; [by apply named_by_key_count_source|].
    split; [rewrite total_chunks_count_source, Htotal, length_app; cbn; lia|].
    split; [by apply positive_chunks_count_source|].
    intros [Hmetas [g Hg]%Forall_singleton]%Forall_app.
    destruct (Hstr Hmetas) as (Hkeys & Hnodup & Hlisted).
    assert (has_source g metadata = true) as Hhas
      by (unfold has_source; rewrite Hg; apply String.eqb_refl).
    destruct (string_keys_count_source (foldl count_source [] metas) metadata)
      as [Hkeys' Hnodup']; [|by eauto|].
    { split; [|done]. eapply Forall_impl; [exact Hkeys|]. intros k (f & -> & _). eauto. }
    split; [|split; [done|]].
    + apply Forall_forall. intros x [Hx| ->]%count_source_keys.
      * apply (proj1 (Forall_forall _ _) Hkeys) in Hx as (f & -> & Hf).
        exists f. split; [done|]. rewrite count_from_snoc. lia.
      * exists g. split; [done|]. rewrite count_from_snoc, Hhas. lia.
    + intros f. rewrite (listed_chunks_count_source _ _ f g) by done.
      rewrite Hlisted, count_from_snoc. unfold has_source. rewrite Hg.
      destruct (String.eqb g f); lia.
Qed.

Lemma list_documents_listed (collection_get : list IndexRecord → Exn + list Metadata)
    (w : World) (metas : list Metadata) :
  collection_get (collection w) = inr metas →
  list_documents collection_get w = (inr (foldl count_source [] metas).*2, w).
Proof.
  intros Hget. unfold list_documents, try_except, mbind, py_bind, collection_get_call.
  by rewrite Hget.
Qed.

(** The listing under string sources, count by count. *)
Lemma list_documents_groups_by_source_lemma
    (collection_get : list IndexRecord → Exn + list Metadata) (w : World)
    (metas : list Metadata) :
  collection_get (collection w) = inr metas →
  string_sources metas →
  ∃ entries,
    list_documents collection_get w = (inr entries, w)
    ∧ ∀ f, listed_chunks (MStr f) entries = Z.of_nat (count_from f metas).
Proof.
  intros Hget Hstr. exists (foldl count_source [] metas).*2.
  split; [by apply list_documents_listed|].
  destruct (foldl_count_source metas) as (_ & _ & _ & Hgroups).
  by destruct (Hgroups Hstr) as (_ & _ & ?).
Qed.

(** X5.  [list_documents] never raises and changes nothing that is stored:
    when the index call fails it prints the error and returns the empty
    list. *)
Theorem list_documents_never_raises
    (collection_get : list IndexRecord → Exn + list Metadata) (w : World) :
  ∃ entries w',
    list_documents collection_get w = (inr entries, w')
    ∧ collection w' = collection w
    ∧ drawn w' = drawn w
    ∧ ∀ e, collection_get (collection w) = inl e →
        entries = []
        ∧ log w' = log w ++ [EvPrint ("Error listing documents: " +:+ str_exn e)].
Proof.
  destruct (collection_get (collection w)) as [e|metas] eqn:Hget.
  - exists [], (emit (EvPrint ("Error listing documents: " +:+ str_exn e)) w).
    split; [|split; [done|split; [done|]]].
    + unfold list_documents, try_except, mbind, py_bind, collection_get_call.
      by rewrite Hget.
    + by intros e' [= <-].
  - exists (foldl count_source [] metas).*2, w.
    split; [by apply list_documents_listed|]. by repeat split.
Qed.

(** X6.  Every metadata entry the index returns is counted exactly once:
    the chunk counts of the listing add up to the number of entries, and no
    listed document has fewer than one chunk. *)
Theorem list_documents_counts_all
    (collection_get : list IndexRecord → Exn + list Metadata) (w : World)
    (metas : list Metadata) :
  collection_get (collection w) = inr metas →
  ∃ entries,
    list_documents collection_get w = (inr entries, w)
    ∧ total_chunks entries = Z.of_nat (length metas)
    ∧ Forall (λ entry, (1 ≤ chunks entry)%Z) entries.
Proof.
  intros Hget. exists (foldl count_source [] metas).*2.
  split; [by apply list_documents_listed|].
  by destruct (foldl_count_source metas) as (_ & ? & ? & _).
Qed.

Lemma list_documents_counts_all_witness :
  ∃ entries,
    list_documents (λ _, inr Samples.mixed_metadatas) Demo.empty_world
      = (inr entries, Demo.empty_world)
    ∧ total_chunks entries = 5%Z
    ∧ Forall (λ entry, (1 ≤ chunks entry)%Z) entries.
Proof.
  exact (list_documents_counts_all (λ _, inr Samples.mixed_metadatas)
           Demo.empty_world Samples.mixed_metadatas eq_refl).
Defined.

(** X7.  When every source is a string (a record without a source counts
    as ['Unknown']), the listing has one entry per distinct source: the
    names are pairwise distinct, each is the source of at least one entry,
    and the chunk count listed under a string is the number of metadata
    entries with that source (zero when it is not listed). *)
Theorem list_documents_groups_by_source
    (collection_get : list IndexRecord → Exn + list Metadata) (w : World)
    (metas : list Metadata) :
  collection_get (collection w) = inr metas →
  string_sources metas →
  ∃ entries,
    list_documents collection_get w = (inr entries, w)
    ∧ NoDup (name <$> entries)
    ∧ Forall (λ entry, ∃ f, name entry = MStr f ∧ 1 ≤ count_from f metas) entries
    ∧ ∀ f, listed_chunks (MStr f) entries = Z.of_nat (count_from f metas).
Proof.
  intros Hget Hstr. exists (foldl count_source [] metas).*2.
  split; [by apply list_documents_listed|].
  destruct (foldl_count_source metas) as (Hnamed & _ & _ & Hgroups).
  destruct (Hgroups Hstr) as (Hkeys & Hnodup & Hlisted).
  assert (name <$> (foldl count_source [] metas).*2 = (foldl count_source [] metas).*1)
    as Hnames.
  { rewrite <- list_fmap_compose. apply list_fmap_ext.
    intros i p Hp. apply (proj1 (Forall_lookup _ _) Hnamed i p Hp). }
  split; [by rewrite Hnames|]. split; [|done].
  apply Forall_forall. intros entry (p & -> & Hp)%list_elem_of_fmap.
  rewrite (proj1 (Forall_forall _ _) Hnamed p Hp).
  apply (proj1 (Forall_forall _ _) Hkeys). apply list_elem_of_fmap. eauto.
Qed.

Lemma list_documents_groups_by_source_witness :
  ∃ entries,
    list_documents (λ _, inr Samples.mixed_metadatas) Demo.empty_world
      = (inr entries, Demo.empty_world)
    ∧ NoDup (name <$> entries)
    ∧ Forall (λ entry, ∃ f, name entry = MStr f
                            ∧ 1 ≤ count_from f Samples.mixed_metadatas) entries
    ∧ ∀ f, listed_chunks (MStr f) entries
           = Z.of_nat (count_from f Samples.mixed_metadatas).
Proof.
  apply (list_documents_groups_by_source (λ _, inr Samples.mixed_metadatas)
           Demo.empty_world Samples.mixed_metadatas eq_refl).
  repeat constructor; by eexists.
Defined.

Lemma records_of_metadatas (ids : list string) (embeddings : list Embedding)
    (texts : list string) (metas : list Metadata) (n : nat) :
  length ids = n → length embeddings = n → length texts = n → length metas = n →
  rec_metadata <$> records_of ids embeddings texts metas = metas.
Proof.
  revert ids embeddings texts metas.
  induction n as [|n IH]; intros [|i ids] [|e es] [|t ts] [|m ms] ????;
    simplify_eq/=; [done|]. f_equal. by apply IH.
Qed.

Lemma count_from_app (f : string) (metas metas' : list Metadata) :
  count_from f (metas ++ metas') = count_from f metas + count_from f metas'.
Proof. unfold count_from. by rewrite filter_app, length_app. Qed.

(** What [add_document] writes for a file: string sources, all of them the
    file name. *)
Lemma chunk_metadatas_sources (filename : string) (texts : list string) :
  string_sources (chunk_metadatas filename texts)
  ∧ ∀ f, count_from f (chunk_metadatas filename texts)
         = if String.eqb filename f then length texts else 0.
Proof.
  assert (∀ metadata, metadata ∈ chunk_metadatas filename texts →
            source_of metadata = MStr filename) as Hsource.
  { intros metadata (i & Hi)%list_elem_of_lookup. unfold chunk_metadatas in Hi.
    rewrite list_lookup_imap in Hi. destruct (texts !! i); simplify_eq/=.
    unfold source_of. by simplify_map_eq. }
  split.
  - apply Forall_forall. eauto.
  - intros f. unfold count_from.
    assert (length (chunk_metadatas filename texts) = length texts) as <-
      by (unfold chunk_metadatas; by rewrite length_imap).
    induction (chunk_metadatas filename texts) as [|m ms IH].
    { by destruct (String.eqb filename f). }
    assert (has_source f m = String.eqb filename f) as Hm.
    { unfold has_source. rewrite (Hsource m); [done|by left]. }
    assert (∀ metadata, metadata ∈ ms → source_of metadata = MStr filename) as Hms
      by (intros ??; apply Hsource; by right).
    specialize (IH Hms). rewrite filter_cons.
    destruct (String.eqb filename f); case_decide; try congruence; cbn; by rewrite ?IH.
Qed.

(** X8.  Listing after an upload: when an ingestion under [filename]
    succeeds with [n] chunks (and as many vectors), and the index lists
    what is stored, the chunk count listed under [filename] is [n] more
    than before and the count under every other name is as before.  A file
    uploaded again is therefore listed once, with the chunks of both
    uploads. *)
Theorem listing_after_ingestion (P : Providers) (content filename : string) (w : World)
    (docs : list Document) (embeddings : list Embedding) :
  create_documents P [content] = inr docs →
  embed_documents P (page_content <$> docs) = inr embeddings →
  length embeddings = length docs →
  collection_add_error P (collection w)
    (ingest_batch P filename (drawn w) (page_content <$> docs) embeddings) = None →
  string_sources (rec_metadata <$> collection w) →
  ∃ before after,
    let w' := snd (add_document P content filename w) in
    list_documents stored_metadatas w = (inr before, w)
    ∧ list_documents stored_metadatas w' = (inr after, w')
    ∧ ∀ f, listed_chunks (MStr f) after
           = (listed_chunks (MStr f) before
              + (if String.eqb filename f then Z.of_nat (length docs) else 0))%Z.
Proof.
  intros Hsplit Hembed Hlen Hadd Hold.
  pose proof (add_document_cases P content filename w) as Hcases. cbv zeta in Hcases.
  rewrite Hsplit, Hembed, Hadd in Hcases. rewrite Hcases. cbn [snd].
  set (texts := page_content <$> docs) in *.
  set (w' := emit _ _).
  assert (rec_metadata <$> collection w'
          = (rec_metadata <$> collection w) ++ chunk_metadatas filename texts) as Hnew.
  { subst w'. cbn. rewrite fmap_app. f_equal.
    apply (records_of_metadatas _ _ _ _ (length texts));
      unfold chunk_ids, chunk_metadatas, texts;
      rewrite ?length_fmap, ?length_imap, ?length_seq, ?length_fmap; done. }
  destruct (chunk_metadatas_sources filename texts) as [Hstr Hcount].
  destruct (list_documents_groups_by_source_lemma stored_metadatas w
              (rec_metadata <$> collection w) eq_refl Hold) as (before & Hb & Hlb).
  destruct (list_documents_groups_by_source_lemma stored_metadatas w'
              (rec_metadata <$> collection w') eq_refl) as (after & Ha & Hla).
  { rewrite Hnew. by apply Forall_app. }
  exists before, after. split; [done|]. split; [done|].
  intros f. rewrite Hla, Hlb, Hnew, count_from_app, Hcount.
  unfold texts. rewrite length_fmap. destruct (String.eqb filename f); lia.
Qed.

(** The same file uploaded a second time. *)
Lemma listing_after_ingestion_witness :
  let P := Demo.providers (inr Demo.no_hits) Demo.plain_reply in
  let w := snd (add_document P "Leave policy." "hr.txt" Demo.empty_world) in
  ∃ before after,
    let w' := snd (add_document P "Leave policy." "hr.txt" w) in
    list_documents stored_metadatas w = (inr before, w)
    ∧ list_documents stored_metadatas w' = (inr after, w')
    ∧ ∀ f, listed_chunks (MStr f) after
           = (listed_chunks (MStr f) before
              + (if String.eqb "hr.txt" f then Z.of_nat 1 else 0))%Z.
Proof.
  cbv zeta.
  apply (listing_after_ingestion (Demo.providers (inr Demo.no_hits) Demo.plain_reply)
           "Leave policy." "hr.txt"
           (snd (add_document (Demo.providers (inr Demo.no_hits) Demo.plain_reply)
                   "Leave policy." "hr.txt" Demo.empty_world))
           [ {| page_content := "Leave policy." |} ] [ [0.5%float] ]
           eq_refl eq_refl eq_refl eq_refl).
  repeat constructor. by exists "hr.txt".
Defined.

(** ** Start-up *)

Lemma load_hr_data_returns (P : Providers) (hr_file : option (Exn + string)) (w : World) :
  ∃ w', _load_hr_data P hr_file w = (inr tt, w').
Proof.
  unfold _load_hr_data, try_except.
  destruct hr_file as [[e|content]|]; unfold mbind, py_bind, read_text, print, call;
    [eauto| |eauto].
  destruct (add_document P content "hr_data.txt" w) as [[e|report] w1]; eauto.
Qed.

(** X9.  Loading the seed file never raises.  A missing file is reported
    and nothing else happens; when reading the file or its ingestion
    raises, the exception is printed and dropped.  So [initialize] raises
    only when the construction of its clients or the count call on the
    collection does, and it then prints the exception and raises it again:
    with the clients in place and the count answered it returns normally
    even if the seed data could not be stored. *)
Theorem startup_survives_seed_failure (P : Providers)
    (count_error : list IndexRecord → option Exn)
    (hr_file : option (Exn + string)) (w : World) :
  (∃ w', _load_hr_data P hr_file w = (inr tt, w'))
  ∧ (hr_file = None →
       _load_hr_data P hr_file w = (inr tt, emit (EvPrint "HR data file not found") w))
  ∧ (∀ e, hr_file = Some (inl e) →
       _load_hr_data P hr_file w
         = (inr tt, emit (EvPrint ("Error loading HR data: " +:+ str_exn e)) w))
  ∧ (∀ content e w1,
       hr_file = Some (inr content) →
       add_document P content "hr_data.txt" w = (inl e, w1) →
       _load_hr_data P hr_file w
         = (inr tt, emit (EvPrint ("Error loading HR data: " +:+ str_exn e)) w1))
  ∧ (count_error (collection w) = None →
       ∃ w', initialize P None count_error hr_file w = (inr tt, w'))
  ∧ (∀ e, count_error (collection w) = Some e →
       initialize P None count_error hr_file w
         = (inl e, emit (EvPrint ("Error initializing RAG service: " +:+ str_exn e)) w))
  ∧ (∀ e, initialize P (Some e) count_error hr_file w
            = (inl e, emit (EvPrint ("Error initializing RAG service: " +:+ str_exn e)) w)).
Proof.
  split; [apply load_hr_data_returns|]. split; [by intros ->|].
  split; [by intros e ->|]. split; [|split; [|split]].
  - intros content e w1 -> Hadd.
    unfold _load_hr_data, try_except, mbind, py_bind, read_text. by rewrite Hadd.
  - intros Hcount.
    unfold initialize, try_except, mbind, py_bind, collection_count. cbn [mret py_ret].
    rewrite Hcount. destruct (length (collection w) =? 0); [|eauto].
    destruct (load_hr_data_returns P hr_file w) as [w' ->]. eauto.
  - intros e Hcount.
    unfold initialize, try_except, mbind, py_bind, collection_count. cbn [mret py_ret].
    by rewrite Hcount.
  - done.
Qed.

(** The embedding client is down while the seed file is there. *)
Lemma startup_survives_seed_failure_witness :
  _load_hr_data Demo.embedder_down (Some (inr "Leave policy.")) Demo.empty_world
    = (inr tt,
       emit (EvPrint "Error loading HR data: embedding unavailable")
         (snd (add_document Demo.embedder_down "Leave policy." "hr_data.txt"
                 Demo.empty_world))).
Proof.
  exact (proj1 (proj2 (proj2 (proj2 (startup_survives_seed_failure Demo.embedder_down
                                       (λ _, None) (Some (inr "Leave policy."))
                                       Demo.empty_world))))
           "Leave policy." (ProviderError "embedding unavailable")
           (snd (add_document Demo.embedder_down "Leave policy." "hr_data.txt"
                   Demo.empty_world))
           eq_refl eq_refl).
Defined.

(** What [_load_hr_data] leaves in the collection. *)
Lemma load_hr_data_collection (P : Providers) (hr_file : option (Exn + string))
    (w : World) :
  collection (snd (_load_hr_data P hr_file w)) = collection w
  ∨ ∃ texts embeddings,
      collection (snd (_load_hr_data P hr_file w))
        = collection w
            ++ batch_records (ingest_batch P "hr_data.txt" (drawn w) texts embeddings).
Proof.
  unfold _load_hr_data, try_except.
  destruct hr_file as [[e|content]|]; unfold mbind, py_bind, read_text, print, call;
    [by left| |by left].
  pose proof (add_document_cases P content "hr_data.txt" w) as Hcases.
  cbv zeta in Hcases.
  destruct (create_documents P [content]) as [e|documents];
    [rewrite Hcases; by left|].
  destruct (embed_documents P (page_content <$> documents)) as [e|embeddings];
    [rewrite Hcases; by left|].
  destruct (collection_add_error P (collection w) _) as [e|]; rewrite Hcases;
    [by left|].
  right. by exists (page_content <$> documents), embeddings.
Qed.

(** One start on a collection that holds a record changes neither the
    collection nor the number of UUIDs drawn. *)
Lemma initialize_nonempty (P : Providers) (start : Startup) (w : World) :
  collection w ≠ [] →
  let w' := snd (initialize P (start_setup start) (start_count_error start)
                   (start_hr_file start) w) in
  collection w' = collection w ∧ drawn w' = drawn w.
Proof.
  intros Hc. cbv zeta.
  unfold initialize, try_except, mbind, py_bind, collection_count, raise.
  destruct (start_setup start) as [e|]; [done|]. cbn [mret py_ret].
  destruct (start_count_error start (collection w)) as [e|]; [done|].
  destruct (collection w) as [|record records] eqn:Hrecords; [done|]. by cbn.
Qed.

(** One start on an empty collection leaves it empty or stores the batch of
    one ingestion of the seed file. *)
Lemma initialize_empty (P : Providers) (start : Startup) (w : World) :
  collection w = [] →
  let w' := snd (initialize P (start_setup start) (start_count_error start)
                   (start_hr_file start) w) in
  collection w' = []
  ∨ ∃ first texts embeddings,
      collection w' = batch_records (ingest_batch P "hr_data.txt" first texts embeddings).
Proof.
  intros Hc. cbv zeta.
  unfold initialize, try_except, mbind, py_bind, collection_count, raise.
  destruct (start_setup start) as [e|]; [by left|]. cbn [mret py_ret].
  destruct (start_count_error start (collection w)) as [e|]; [by left|].
  rewrite Hc. cbn [length Nat.eqb].
  destruct (load_hr_data_returns P (start_hr_file start) w) as [w1 Hload].
  destruct (load_hr_data_collection P (start_hr_file start) w) as [Hsame|Hstored];
    rewrite Hload in *; cbn [snd] in *.
  - left. by rewrite Hsame.
  - right. destruct Hstored as (texts & embeddings & ->). rewrite Hc.
    by exists (drawn w), texts, embeddings.
Qed.

(** X10.  The seed file is stored at most once, over any series of starts
    of the service on one persistent collection, whatever each start meets
    (clients that cannot be built, a failing count call, a missing or
    unreadable seed file, a failing ingestion).  Once the collection holds a
    record, no start changes it or draws a UUID.  Starting from an empty
    collection, what the collection holds after the series is nothing or
    the batch of one single ingestion of [hr_data.txt]. *)
Theorem initialize_seeds_once (P : Providers) (starts : list Startup) (w : World) :
  (collection w ≠ [] →
     collection (restarts P starts w) = collection w
     ∧ drawn (restarts P starts w) = drawn w)
  ∧ (collection w = [] →
     collection (restarts P starts w) = []
     ∨ ∃ first texts embeddings,
         collection (restarts P starts w)
           = batch_records (ingest_batch P "hr_data.txt" first texts embeddings)).
Proof.
  assert (∀ starts w, collection w ≠ [] →
            collection (restarts P starts w) = collection w
            ∧ drawn (restarts P starts w) = drawn w) as Hkept.
  { clear. intros starts. induction starts as [|start starts IH]; intros w Hc; [done|].
    cbn [restarts].
    destruct (initialize_nonempty P start w Hc) as [Hsame Hdrawn].
    destruct (IH _ ltac:(by rewrite Hsame)) as [-> ->]. done. }
  split; [apply Hkept|].
  revert w. induction starts as [|start starts IH]; intros w Hc; [by left|].
  cbn [restarts].
  destruct (initialize_empty P start w Hc) as [Hempty|(first & texts & embeddings & Hstored)].
  - by apply IH.
  - destruct (batch_records (ingest_batch P "hr_data.txt" first texts embeddings))
      as [|record records] eqn:Hbatch.
    + apply IH. by rewrite Hstored.
    + right. exists first, texts, embeddings.
      rewrite (proj1 (Hkept starts _ ltac:(by rewrite Hstored))).
      by rewrite Hstored.
Qed.

(** A first start that stores the seed chunk, then three more: one with the
    seed file there, one whose count call fails, one whose clients cannot be
    built.  The collection keeps its one record. *)
Lemma initialize_seeds_once_witness :
  let P := Demo.providers (inr Demo.no_hits) Demo.plain_reply in
  let seeded := {| start_setup := None; start_count_error := λ _, None;
                   start_hr_file := Some (inr "Leave policy.") |} in
  let w := restarts P [seeded] Demo.empty_world in
  let later :=
    [ seeded;
      {| start_setup := None;
         start_count_error := λ _, Some (ProviderError "index unavailable");
         start_hr_file := Some (inr "Leave policy.") |};
      {| start_setup := Some (ProviderError "no API key");
         start_count_error := λ _, None;
         start_hr_file := None |} ] in
  length (collection w) = 1
  ∧ collection (restarts P later w) = collection w
  ∧ drawn (restarts P later w) = drawn w.
Proof.
  cbv zeta. split; [reflexivity|].
  apply (proj1 (initialize_seeds_once
                  (Demo.providers (inr Demo.no_hits) Demo.plain_reply) _
                  (restarts (Demo.providers (inr Demo.no_hits) Demo.plain_reply)
                     [ {| start_setup := None; start_count_error := λ _, None;
                          start_hr_file := Some (inr "Leave policy.") |} ]
                     Demo.empty_world))).
  discriminate.
Defined.

(** ** The audio format check *)

Lemma substring_empty (a b : nat) : String.substring a b "" = "".
Proof. by destruct a, b. Qed.

Lemma substring_none (a : nat) (s : string) : String.substring a 0 s = "".
Proof.
  revert a. induction s as [|c s IH]; intros a; [apply substring_empty|].
  destruct a; [done|]. apply IH.
Qed.

(** A slice that ends within the first [n] bytes can be taken from them. *)
Lemma substring_of_head (s : string) (a b n : nat) :
  a + b ≤ n →
  String.substring a b (String.substring 0 n s) = String.substring a b s.
Proof.
  revert a b n. induction s as [|c s IH]; intros a b n Hn.
  - by rewrite !substring_empty.
  - destruct n as [|n].
    + assert (a = 0 ∧ b = 0) as [-> ->] by lia. done.
    + cbn [String.substring]. destruct a as [|a].
      * destruct b as [|b]; [done|]. cbn [String.substring]. f_equal. apply IH. lia.
      * cbn [String.substring]. apply IH. lia.
Qed.

(** A slice that came out full is not changed by what is appended. *)
Lemma substring_full_app (s e : string) (a b : nat) :
  String.length (String.substring a b s) = b →
  String.substring a b (s +:+ e) = String.substring a b s.
Proof.
  revert a b. induction s as [|c s IH]; intros a b Hlen.
  - rewrite substring_empty in Hlen. cbn in Hlen. subst b.
    by rewrite !substring_none.
  - rewrite app_cons_str. destruct a as [|a].
    + destruct b as [|b]; [done|]. cbn [String.substring] in *. f_equal.
      apply IH. cbn in Hlen. lia.
    + cbn [String.substring] in *. by apply IH.
Qed.

(** The head of a longer text starts with the head of the shorter one. *)
Lemma substring_head_app (s e : string) (n : nat) :
  ∃ more, String.substring 0 n (s +:+ e) = String.substring 0 n s +:+ more.
Proof.
  revert n. induction s as [|c s IH]; intros n.
  - rewrite substring_empty. by eexists.
  - rewrite app_cons_str. destruct n as [|n]; [by exists ""|].
    cbn [String.substring]. destruct (IH n) as [more ->].
    exists more. by rewrite app_cons_str.
Qed.

Lemma str_in_app (needle hay more : string) :
  str_in needle hay = true → str_in needle (hay +:+ more) = true.
Proof.
  rewrite !str_in_spec. intros (before & after & ->).
  exists before, (after +:+ more). by rewrite !app_assoc_str.
Qed.

Lemma eqb_full_app (s e lit : string) (a b : nat) :
  String.length lit = b →
  String.eqb (String.substring a b s) lit = true →
  String.eqb (String.substring a b (s +:+ e)) lit = true.
Proof.
  intros Hlit Heq. apply String.eqb_eq in Heq.
  rewrite substring_full_app; [by apply String.eqb_eq|]. by rewrite Heq.
Qed.

(** X11.  The check looks at the first 20 bytes only: two inputs that
    agree on them get the same verdict, whatever follows. *)
Theorem validate_audio_format_head (audio_data : string) :
  validate_audio_format (String.substring 0 20 audio_data)
    = validate_audio_format audio_data.
Proof.
  unfold validate_audio_format. by rewrite !substring_of_head by lia.
Qed.

(** X12.  An accepted input stays accepted when bytes are appended to
    it. *)
Theorem validate_audio_format_extends (audio_data more : string) :
  validate_audio_format audio_data = true →
  validate_audio_format (audio_data +:+ more) = true.
Proof.
  unfold validate_audio_format.
  destruct (String.eqb (String.substring 0 4 audio_data) "RIFF") eqn:Hriff;
    [destruct (String.eqb (String.substring 8 4 audio_data) "WAVE") eqn:Hwave|].
  { intros _. by rewrite (eqb_full_app _ _ "RIFF"), (eqb_full_app _ _ "WAVE"). }
  all: cbn [andb]; intros Hrest;
    destruct (String.eqb (String.substring 0 4 (audio_data +:+ more)) "RIFF"
              && String.eqb (String.substring 8 4 (audio_data +:+ more)) "WAVE");
    [done|].
  all: destruct (String.eqb (String.substring 0 3 audio_data) "ID3") eqn:Hid3;
    [by rewrite (eqb_full_app _ _ "ID3")|];
    destruct (String.eqb (String.substring 0 2 audio_data)
                (String "255"%char (String "251"%char EmptyString))) eqn:Hmp3;
    [rewrite (eqb_full_app _ _ (String "255"%char (String "251"%char EmptyString)))
       by done; by rewrite orb_true_r|];
    cbn [orb] in Hrest;
    destruct (String.eqb (String.substring 0 3 (audio_data +:+ more)) "ID3"
              || String.eqb (String.substring 0 2 (audio_data +:+ more))
                   (String "255"%char (String "251"%char EmptyString)));
    [done|];
    destruct (str_in "ftyp" (String.substring 0 20 audio_data)) eqn:Hftyp;
    [destruct (substring_head_app audio_data more 20) as [tail ->];
     by rewrite str_in_app|];
    destruct (str_in "ftyp" (String.substring 0 20 (audio_data +:+ more))); [done|];
    destruct (String.eqb (String.substring 0 4 audio_data) "OggS") eqn:Hogg;
    [by rewrite (eqb_full_app _ _ "OggS")|done].
Qed.

Lemma validate_audio_format_extends_witness :
  validate_audio_format ("RIFF0000WAVE" +:+ "fmt and the samples") = true.
Proof.
  apply (validate_audio_format_extends "RIFF0000WAVE" "fmt and the samples").
  reflexivity.
Defined.

(** X13.  Input of fewer than two bytes, the empty input included, is
    rejected. *)
Theorem validate_audio_format_short (audio_data : string) :
  String.length audio_data < 2 → validate_audio_format audio_data = false.
Proof.
  destruct audio_data as [|c [|c' rest]]; [done| |cbn; lia]. intros _.
  destruct c as [[] [] [] [] [] [] [] []]; reflexivity.
Qed.

Lemma validate_audio_format_short_witness : validate_audio_format "" = false.
Proof. apply validate_audio_format_short. cbn. lia. Defined.

(** ** Text to speech *)

(** What [text_to_speech] does, by outcome of the HTTP call. *)
Lemma text_to_speech_cases (E : Edge) (text : string) (voice_id : option string)
    (w : World) :
  match http_post E (tts_url voice_id) (tts_data text) with
  | inl e =>
      text_to_speech E text voice_id w
        = (inl e, emit (EvPrint ("Error in text_to_speech: " +:+ str_exn e)) w)
  | inr response =>
      if (status_code response =? 200)%Z
      then text_to_speech E text voice_id w = (inr (http_content response), w)
      else
        let e := ProviderError ("TTS API error: " +:+ pretty (status_code response)) in
        text_to_speech E text voice_id w
          = (inl e,
             emit (EvPrint ("Error in text_to_speech: " +:+ str_exn e))
               (emit (EvPrint ("ElevenLabs API error: "
                                 +:+ pretty (status_code response) +:+ " - "
                                 +:+ http_text response)) w))
  end.
Proof.
  unfold text_to_speech, try_except, mbind, py_bind, outcome_of.
  destruct (http_post E (tts_url voice_id) (tts_data text)) as [e|response]; [done|].
  by destruct (status_code response =? 200)%Z.
Qed.

(** X14.  [text_to_speech] returns audio bytes only from an answer with
    status 200, and then exactly the body of that answer; any other status
    raises "TTS API error: <status>", so an error body is never handed on as
    audio.  A missing and an empty voice id both select the default voice.
    The stored collection is not touched. *)
Theorem text_to_speech_needs_200 (E : Edge) (text : string) (voice_id : option string)
    (w : World) :
  (∀ audio,
     fst (text_to_speech E text voice_id w) = inr audio
     ↔ ∃ response,
         http_post E (tts_url voice_id) (tts_data text) = inr response
         ∧ status_code response = 200%Z
         ∧ http_content response = audio)
  ∧ (∀ response,
       http_post E (tts_url voice_id) (tts_data text) = inr response →
       status_code response ≠ 200%Z →
       fst (text_to_speech E text voice_id w)
         = inl (ProviderError ("TTS API error: " +:+ pretty (status_code response))))
  ∧ tts_url None = tts_url (Some "")
  ∧ tts_url None = base_url +:+ "/text-to-speech/" +:+ default_voice_id
  ∧ collection (snd (text_to_speech E text voice_id w)) = collection w.
Proof.
  pose proof (text_to_speech_cases E text voice_id w) as Hcases.
  destruct (http_post E (tts_url voice_id) (tts_data text)) as [e|response].
  { rewrite Hcases. repeat split; try done. intros (? & [=] & _). }
  destruct (status_code response =? 200)%Z eqn:Hstatus; cbv zeta in Hcases;
    rewrite Hcases; cbn [fst snd].
  - apply Z.eqb_eq in Hstatus. repeat split; try done.
    + intros [= <-]. eauto.
    + by intros (? & [= <-] & _ & <-).
    + intros ? [= <-] ?. done.
  - apply Z.eqb_neq in Hstatus. repeat split; try done.
    + intros (? & [= <-] & ? & _). done.
    + by intros ? [= <-] _.
Qed.

(** ** Speech to text *)

(** X15.  The temporary file of [speech_to_text]: when the uploaded bytes
    were written to it, the file is gone again after the call, whether the
    transcription returned (the result is then the stripped transcript) or
    raised (the exception is passed on); when writing the bytes fails, the
    exception is passed on and the file is left behind. *)
Theorem speech_to_text_temp_file (E : Edge) (audio_data : AudioInput)
    (language : string) (s : Server) (path : string) :
  temp_create E (files s) = inr path →
  files s !! path = None →
  (temp_write_error E path (audio_bytes audio_data) = None →
     files (snd (speech_to_text E audio_data language s)) = files s
     ∧ (∀ text,
          transcribe E (audio_bytes audio_data) language = inr (TranscriptStr text)
          ∨ transcribe E (audio_bytes audio_data) language = inr (TranscriptObject text) →
          speech_to_text E audio_data language s = (inr (strip text), s))
     ∧ (∀ e,
          transcribe E (audio_bytes audio_data) language = inl e →
          fst (speech_to_text E audio_data language s) = inl e))
  ∧ (∀ e,
       temp_write_error E path (audio_bytes audio_data) = Some e →
       fst (speech_to_text E audio_data language s) = inl e
       ∧ is_Some (files (snd (speech_to_text E audio_data language s)) !! path)).
Proof.
  intros Hcreate Hfresh.
  assert (delete path (<[path := audio_bytes audio_data]> (files s)) = files s) as Hgone.
  { by rewrite delete_insert_eq, delete_id. }
  unfold speech_to_text, srv_try_except, srv_try_finally.
  unfold mbind, srv_bind, srv_outcome, temp_write, open_rb, path_exists, unlink, lift.
  rewrite Hcreate. cbn [files rag]. split.
  - intros ->. cbn [files rag]. rewrite lookup_insert_eq.
    destruct (transcribe E (audio_bytes audio_data) language) as [e|transcript] eqn:Ht;
      cbn [mret srv_ret files rag]; rewrite lookup_insert_eq;
      rewrite bool_decide_eq_true_2 by eauto; cbn [files rag fst snd print call lift];
      rewrite Hgone.
    + split; [done|]. split; [by intros ? [[=]|[=]]|by intros ? [= <-]].
    + split; [done|]. split; [|by intros ? [=]].
      intros text [[= ->]|[= ->]]; by destruct s.
  - intros e ->. cbn. split; [done|]. rewrite lookup_insert_eq. eauto.
Qed.

Lemma speech_to_text_temp_file_witness :
  speech_to_text (Studio.edge Studio.spoken Studio.heard_question)
    (Bytes "RIFF0000WAVE") "ar" Studio.empty_server
    = (inr "what about annual leave?", Studio.empty_server).
Proof.
  exact (proj1 (proj2 (proj1 (speech_to_text_temp_file
                                (Studio.edge Studio.spoken Studio.heard_question)
                                (Bytes "RIFF0000WAVE") "ar" Studio.empty_server
                                "/tmp/tmpa1.wav" eq_refl eq_refl) eq_refl))
           "  what about annual leave? " (or_introl eq_refl)).
Defined.

Lemma text_to_speech_needs_200_witness :
  fst (text_to_speech (Studio.edge Studio.quota_exceeded Studio.heard_question)
         "Employees get 21 days." None Demo.empty_world)
    = inl (ProviderError "TTS API error: 401").
Proof.
  exact (proj1 (proj2 (text_to_speech_needs_200
                         (Studio.edge Studio.quota_exceeded Studio.heard_question)
                         "Employees get 21 days." None Demo.empty_world))
           {| status_code := 401; http_content := "{}"; http_text := "quota exceeded" |}
           eq_refl ltac:(discriminate)).
Defined.

(** ** The endpoints *)

Lemma query_returns (P : Providers) (question : string) (n : Z) (w : World) :
  ∃ r w', query P question n w = (inr r, w')
          ∧ collection w' = collection w ∧ drawn w' = drawn w.
Proof.
  destruct (query_world P question n w) as (events & tail & Hworld & _).
  unfold query, try_except in *.
  destruct (query_body P question n w) as [[e|r] w1];
    unfold mbind, py_bind, print, call in *; cbn in Hworld |- *;
    eexists _, _; (split; [reflexivity|]); by rewrite Hworld.
Qed.

Lemma text_to_speech_frame (E : Edge) (text : string) (voice_id : option string)
    (w : World) :
  collection (snd (text_to_speech E text voice_id w)) = collection w
  ∧ drawn (snd (text_to_speech E text voice_id w)) = drawn w.
Proof.
  pose proof (text_to_speech_cases E text voice_id w) as Hcases.
  destruct (http_post E (tts_url voice_id) (tts_data text)) as [e|response];
    [by rewrite Hcases|].
  destruct (status_code response =? 200)%Z; by rewrite Hcases.
Qed.

(** What [query_documents] does once the answer is there, by outcome of
    the speech call, of opening the audio file and of writing it. *)
Lemma query_documents_cases (P : Providers) (E : Edge) (request : Main.QueryRequest)
    (s : Server) (r : QueryResult) (w1 : World) :
  query P (Main.question request) 5 (rag s) = (inr r, w1) →
  let silent := {| Main.response_answer := answer r;
                   Main.response_sources := sources r;
                   Main.audio_url := None |} in
  let filename := Main.audio_filename E "response_" (answer r) in
  match text_to_speech E (answer r) None w1 with
  | (inl e, w2) =>
      Main.query_documents P E request s
        = (inr silent,
           {| rag := emit (EvPrint ("TTS Error: " +:+ str_exn e)) w2;
              files := files s |})
  | (inr audio, w2) =>
      match audio_open_error E ("frontend/audio/" +:+ filename) with
      | Some e =>
          Main.query_documents P E request s
            = (inr silent,
               {| rag := emit (EvPrint ("TTS Error: " +:+ str_exn e)) w2;
                  files := files s |})
      | None =>
          match audio_write_error E ("frontend/audio/" +:+ filename) audio with
          | Some (e, written) =>
              Main.query_documents P E request s
                = (inr silent,
                   {| rag := emit (EvPrint ("TTS Error: " +:+ str_exn e)) w2;
                      files := <["frontend/audio/" +:+ filename := written]> (files s) |})
          | None =>
              Main.query_documents P E request s
                = (inr {| Main.response_answer := answer r;
                          Main.response_sources := sources r;
                          Main.audio_url := Some ("/static/audio/" +:+ filename) |},
                   {| rag := w2;
                      files := <["frontend/audio/" +:+ filename := audio]> (files s) |})
          end
      end
  end.
Proof.
  intros Hquery. cbv zeta.
  unfold Main.query_documents, Main.or_500, srv_try_except, Main.save_audio.
  unfold mbind, srv_bind, lift. rewrite Hquery. cbn [rag files].
  destruct (text_to_speech E (answer r) None w1) as [[e|audio] w2]; [done|].
  cbn [rag files].
  destruct (audio_open_error E _) as [e|]; [done|].
  by destruct (audio_write_error E _ audio) as [[e written]|].
Qed.

(** X16.  [POST /query] never answers with an HTTP error: whatever fails in
    the RAG service, in the speech call or while saving the audio, it
    returns a response whose answer and sources are those of
    [rag_service.query] on the question with 5 results.  The stored
    collection is never changed, and no file other than the audio file of
    this answer is.  When the speech call raises, or the audio file cannot
    be opened, the response has no audio URL and the files are as before;
    when the write to the opened file raises, the response has no audio URL
    either, but the audio file has been replaced by what was written until
    then. *)
Theorem query_endpoint_never_fails (P : Providers) (E : Edge)
    (request : Main.QueryRequest) (s : Server) :
  ∃ response s' w',
    Main.query_documents P E request s = (inr response, s')
    ∧ query P (Main.question request) 5 (rag s)
        = (inr {| answer := Main.response_answer response;
                  sources := Main.response_sources response |}, w')
    ∧ collection (rag s') = collection (rag s)
    ∧ let audio_path :=
        "frontend/audio/"
          +:+ Main.audio_filename E "response_" (Main.response_answer response) in
      let speech := fst (text_to_speech E (Main.response_answer response) None w') in
      (∀ path, path ≠ audio_path → files s' !! path = files s !! path)
      ∧ (∀ e, speech = inl e →
           Main.audio_url response = None ∧ files s' = files s)
      ∧ (∀ audio e,
           speech = inr audio →
           audio_open_error E audio_path = Some e →
           Main.audio_url response = None ∧ files s' = files s)
      ∧ (∀ audio e written,
           speech = inr audio →
           audio_open_error E audio_path = None →
           audio_write_error E audio_path audio = Some (e, written) →
           Main.audio_url response = None
           ∧ files s' = <[audio_path := written]> (files s)).
Proof.
  destruct (query_returns P (Main.question request) 5 (rag s))
    as (r & w1 & Hquery & Hc & _).
  pose proof (query_documents_cases P E request s r w1 Hquery) as Hcases.
  pose proof (text_to_speech_frame E (answer r) None w1) as [Hframe _].
  cbv zeta in Hcases.
  destruct (text_to_speech E (answer r) None w1) as [[e0|audio0] w2] eqn:Hspeech;
    cbn [snd] in Hframe.
  - eexists _, _, w1. split; [exact Hcases|]. cbn [Main.response_answer
      Main.response_sources Main.audio_url rag files collection emit].
    split; [by destruct r|]. split; [congruence|]. cbv zeta. rewrite Hspeech.
    cbn [fst]. split; [done|]. split; [done|]. split; by intros.
  - destruct (audio_open_error E _) as [e1|] eqn:Hopen.
    { eexists _, _, w1. split; [exact Hcases|]. cbn [Main.response_answer
        Main.response_sources Main.audio_url rag files collection emit].
      split; [by destruct r|]. split; [congruence|]. cbv zeta. rewrite Hspeech.
      cbn [fst]. split; [done|]. split; [done|]. split; [done|].
      intros ? ? ? _ Hopen'. congruence. }
    destruct (audio_write_error E _ audio0) as [[e1 written0]|] eqn:Hwrite.
    + eexists _, _, w1. split; [exact Hcases|]. cbn [Main.response_answer
        Main.response_sources Main.audio_url rag files collection emit].
      split; [by destruct r|]. split; [congruence|]. cbv zeta. rewrite Hspeech.
      cbn [fst]. split; [by intros path Hpath; rewrite lookup_insert_ne|].
      split; [by intros|]. split; [intros ? ? _ Hopen'; congruence|].
      intros audio e written [= <-] _ Hwrite'. split; [done|]. congruence.
    + eexists _, _, w1. split; [exact Hcases|]. cbn [Main.response_answer
        Main.response_sources Main.audio_url rag files collection emit].
      split; [by destruct r|]. split; [congruence|]. cbv zeta. rewrite Hspeech.
      cbn [fst]. split; [by intros path Hpath; rewrite lookup_insert_ne|].
      split; [by intros|]. split; [intros ? ? _ Hopen'; congruence|].
      intros audio e written [= <-] _ Hwrite'. congruence.
Qed.

(** The disk fills up while the audio of an answer is written over the
    audio of an earlier one: the response has no audio URL, and the earlier
    audio is gone. *)
Lemma query_endpoint_never_fails_witness :
  let P := Demo.providers (inr Demo.one_hit) Demo.plain_reply in
  let E := Studio.full_disk "ID3 spo" Studio.spoken in
  let request := {| Main.question := "What about annual leave?";
                    Main.use_voice := None |} in
  let s := {| rag := Demo.empty_world;
              files := {[ "frontend/audio/response_7.mp3" := "ID3 earlier answer" ]} |} in
  ∃ response s',
    Main.query_documents P E request s = (inr response, s')
    ∧ Main.audio_url response = None
    ∧ files s' !! "frontend/audio/response_7.mp3" = Some "ID3 spo".
Proof.
  cbv zeta.
  destruct (query_endpoint_never_fails
              (Demo.providers (inr Demo.one_hit) Demo.plain_reply)
              (Studio.full_disk "ID3 spo" Studio.spoken)
              {| Main.question := "What about annual leave?"; Main.use_voice := None |}
              {| rag := Demo.empty_world;
                 files := {[ "frontend/audio/response_7.mp3" := "ID3 earlier answer" ]} |})
    as (response & s' & w' & Hrun & _ & _ & _ & _ & _ & Hwrite).
  exists response, s'. split; [exact Hrun|].
  destruct (Hwrite "ID3 spoken answer"
              (ProviderError "[Errno 28] No space left on device") "ID3 spo"
              eq_refl eq_refl eq_refl) as [Hurl Hfiles].
  split; [exact Hurl|].
  rewrite Hfiles. apply lookup_insert_eq.
Defined.

(** The audio file behind an audio URL, in the terms of the endpoint. *)
Lemma query_documents_audio (P : Providers) (E : Edge) (request : Main.QueryRequest)
    (s s' : Server) (response : Main.QueryResponse) (url : string) :
  Main.query_documents P E request s = (inr response, s') →
  Main.audio_url response = Some url →
  let filename := Main.audio_filename E "response_" (Main.response_answer response) in
  ∃ spoken,
    url = "/static/audio/" +:+ filename
    ∧ http_post E (tts_url None) (tts_data (Main.response_answer response)) = inr spoken
    ∧ status_code spoken = 200%Z
    ∧ files s' = <["frontend/audio/" +:+ filename := http_content spoken]> (files s).
Proof.
  intros Hrun Hurl.
  destruct (query_returns P (Main.question request) 5 (rag s))
    as (r & w1 & Hquery & _ & _).
  pose proof (query_documents_cases P E request s r w1 Hquery) as Hcases.
  cbv zeta in Hcases.
  pose proof (text_to_speech_cases E (answer r) None w1) as Htts.
  destruct (text_to_speech E (answer r) None w1) as [[e|audio] w2] eqn:Hspeech.
  { rewrite Hcases in Hrun. by simplify_eq/=. }
  destruct (audio_open_error E _) as [e|].
  { rewrite Hcases in Hrun. by simplify_eq/=. }
  destruct (audio_write_error E _ audio) as [[e written]|].
  { rewrite Hcases in Hrun. by simplify_eq/=. }
  rewrite Hcases in Hrun. simplify_eq/=.
  destruct (http_post E (tts_url None) (tts_data (answer r))) as [e|spoken];
    [discriminate Htts|].
  destruct (status_code spoken =? 200)%Z eqn:Hstatus; [|discriminate Htts].
  injection Htts as -> ->. apply Z.eqb_eq in Hstatus.
  by exists spoken.
Qed.

(** X17.  The audio of a response: when [POST /query] returns an audio URL,
    the URL is [/static/audio/response_k.mp3] where [k] is the hash of the
    answer modulo 10000, so [0 <= k < 10000]; the file
    [frontend/audio/response_k.mp3] then holds the body of the status-200
    answer of the speech provider for that answer text, and no other file
    has changed. *)
Theorem audio_file_naming (P : Providers) (E : Edge) (request : Main.QueryRequest)
    (s s' : Server) (response : Main.QueryResponse) (url : string) :
  Main.query_documents P E request s = (inr response, s') →
  Main.audio_url response = Some url →
  ∃ k spoken,
    k = (py_hash E (Main.response_answer response) `mod` 10000)%Z
    ∧ (0 ≤ k < 10000)%Z
    ∧ url = "/static/audio/response_" +:+ pretty k +:+ ".mp3"
    ∧ http_post E (tts_url None) (tts_data (Main.response_answer response)) = inr spoken
    ∧ status_code spoken = 200%Z
    ∧ files s'
        = <["frontend/audio/response_" +:+ pretty k +:+ ".mp3" := http_content spoken]>
            (files s).
Proof.
  intros Hrun Hurl.
  destruct (query_documents_audio P E request s s' response url Hrun Hurl)
    as (spoken & -> & Hpost & Hstatus & ->).
  exists (py_hash E (Main.response_answer response) `mod` 10000)%Z, spoken.
  split; [done|]. split; [by apply Z.mod_pos_bound|].
  unfold Main.audio_filename. by repeat split.
Qed.

Lemma audio_file_naming_witness :
  let P := Demo.providers (inr Demo.one_hit) Demo.plain_reply in
  let E := Studio.edge Studio.spoken Studio.heard_question in
  let request := {| Main.question := "What about annual leave?";
                    Main.use_voice := None |} in
  let run := Main.query_documents P E request Studio.empty_server in
  ∃ response,
    fst run = inr response
    ∧ ∃ k spoken,
        k = (py_hash E (Main.response_answer response) `mod` 10000)%Z
        ∧ (0 ≤ k < 10000)%Z
        ∧ "/static/audio/response_7.mp3"
            = "/static/audio/response_" +:+ pretty k +:+ ".mp3"
        ∧ http_post E (tts_url None) (tts_data (Main.response_answer response))
            = inr spoken
        ∧ status_code spoken = 200%Z
        ∧ files (snd run)
            = <["frontend/audio/response_" +:+ pretty k +:+ ".mp3"
                  := http_content spoken]> (files Studio.empty_server).
Proof.
  cbv zeta. eexists. split; [vm_compute; reflexivity|].
  apply (audio_file_naming (Demo.providers (inr Demo.one_hit) Demo.plain_reply)
           (Studio.edge Studio.spoken Studio.heard_question)
           {| Main.question := "What about annual leave?"; Main.use_voice := None |}
           Studio.empty_server); reflexivity.
Defined.

(** X18.  Two answers whose hashes agree modulo 10000 share one audio
    file: when two requests in a row both return an audio URL and the
    hashes of their answers agree modulo 10000, the two URLs are the same
    and, after the second request, the file behind them holds the audio of
    the second answer. *)
Theorem audio_file_overwritten (P : Providers) (E : Edge)
    (request1 request2 : Main.QueryRequest) (s s1 s2 : Server)
    (response1 response2 : Main.QueryResponse) (url1 url2 : string) :
  Main.query_documents P E request1 s = (inr response1, s1) →
  Main.query_documents P E request2 s1 = (inr response2, s2) →
  Main.audio_url response1 = Some url1 →
  Main.audio_url response2 = Some url2 →
  (py_hash E (Main.response_answer response1) `mod` 10000
   = py_hash E (Main.response_answer response2) `mod` 10000)%Z →
  url1 = url2
  ∧ ∃ (k : Z) spoken2,
      url1 = "/static/audio/response_" +:+ pretty k +:+ ".mp3"
      ∧ http_post E (tts_url None) (tts_data (Main.response_answer response2))
          = inr spoken2
      ∧ files s2 !! ("frontend/audio/response_" +:+ pretty k +:+ ".mp3")
          = Some (http_content spoken2).
Proof.
  intros Hrun1 Hrun2 Hurl1 Hurl2 Hhash.
  destruct (query_documents_audio P E request1 s s1 response1 url1 Hrun1 Hurl1)
    as (spoken1 & -> & _ & _ & _).
  destruct (query_documents_audio P E request2 s1 s2 response2 url2 Hrun2 Hurl2)
    as (spoken2 & -> & Hpost & _ & ->).
  unfold Main.audio_filename. rewrite Hhash. split; [done|].
  exists (py_hash E (Main.response_answer response2) `mod` 10000)%Z, spoken2.
  split; [done|]. split; [done|]. apply lookup_insert_eq.
Qed.

(** The same question asked twice under a hash that sends every text to 7. *)
Lemma audio_file_overwritten_witness :
  let P := Demo.providers (inr Demo.one_hit) Demo.plain_reply in
  let E := Studio.edge Studio.spoken Studio.heard_question in
  let request := {| Main.question := "What about annual leave?";
                    Main.use_voice := Some true |} in
  let run1 := Main.query_documents P E request Studio.empty_server in
  let run2 := Main.query_documents P E request (snd run1) in
  ∃ response2,
    fst run2 = inr response2
    ∧ "/static/audio/response_7.mp3" = "/static/audio/response_7.mp3"
    ∧ ∃ (k : Z) spoken2,
        "/static/audio/response_7.mp3"
          = "/static/audio/response_" +:+ pretty k +:+ ".mp3"
        ∧ http_post E (tts_url None) (tts_data (Main.response_answer response2))
            = inr spoken2
        ∧ files (snd run2) !! ("frontend/audio/response_" +:+ pretty k +:+ ".mp3")
            = Some (http_content spoken2).
Proof.
  cbv zeta. eexists. split; [vm_compute; reflexivity|].
  eapply (audio_file_overwritten (Demo.providers (inr Demo.one_hit) Demo.plain_reply)
            (Studio.edge Studio.spoken Studio.heard_question)
            {| Main.question := "What about annual leave?"; Main.use_voice := Some true |}
            {| Main.question := "What about annual leave?"; Main.use_voice := Some true |}
            Studio.empty_server); reflexivity.
Defined.

(** X19.  [POST /voice-query] answers with HTTP 500, carrying the text of
    the exception, when reading the upload or the transcription raises.
    Once there is a transcript it always returns a response: the question is
    the transcript, the answer and sources are those of [rag_service.query]
    on it with 5 results, whatever fails in the RAG service or in the speech
    call. *)
Theorem voice_endpoint_errors (P : Providers) (E : Edge) (upload : Exn + string)
    (s : Server) :
  (∀ e, upload = inl e →
     Main.query_voice P E upload s = (inl (Main.HTTPError 500 (str_exn e)), s))
  ∧ (∀ audio e s1,
       upload = inr audio →
       speech_to_text E (Bytes audio) "ar" s = (inl e, s1) →
       Main.query_voice P E upload s = (inl (Main.HTTPError 500 (str_exn e)), s1))
  ∧ (∀ audio transcript s1,
       upload = inr audio →
       speech_to_text E (Bytes audio) "ar" s = (inr transcript, s1) →
       ∃ response s' w',
         Main.query_voice P E upload s = (inr response, s')
         ∧ Main.voice_question response = transcript
         ∧ query P transcript 5 (rag s1)
             = (inr {| answer := Main.voice_answer response;
                       sources := Main.voice_sources response |}, w')).
Proof.
  split; [|split].
  - intros e ->. unfold Main.query_voice, Main.or_500, mbind, srv_bind, lift, outcome_of.
    by destruct s.
  - intros audio e s1 -> Hstt.
    unfold Main.query_voice, Main.or_500, mbind, srv_bind, lift, outcome_of.
    cbn. replace {| rag := rag s; files := files s |} with s by (by destruct s).
    by rewrite Hstt.
  - intros audio transcript s1 -> Hstt.
    destruct (query_returns P transcript 5 (rag s1)) as (r & w1 & Hquery & _ & _).
    unfold Main.query_voice, Main.or_500, srv_try_except, Main.save_audio.
    unfold mbind, srv_bind, lift, outcome_of.
    cbn. replace {| rag := rag s; files := files s |} with s by (by destruct s).
    rewrite Hstt, Hquery. cbn [rag files].
    destruct (text_to_speech E (answer r) None w1) as [[e|spoken] w2]; cbn [rag files].
    + eexists _, _, w1. split; [reflexivity|]. by destruct r.
    + destruct (audio_open_error E _) as [e|];
        [|destruct (audio_write_error E _ spoken) as [[e written]|]]; cbn;
        eexists _, _, w1; (split; [reflexivity|]); by destruct r.
Qed.

Lemma voice_endpoint_errors_witness :
  Main.query_voice (Demo.providers (inr Demo.one_hit) Demo.plain_reply)
    (Studio.edge Studio.spoken (inl (ProviderError "audio too short")))
    (inr "RIFF0000WAVE") Studio.empty_server
  = (inl (Main.HTTPError 500 "audio too short"),
     snd (speech_to_text
            (Studio.edge Studio.spoken (inl (ProviderError "audio too short")))
            (Bytes "RIFF0000WAVE") "ar" Studio.empty_server)).
Proof.
  exact (proj1 (proj2 (voice_endpoint_errors
                         (Demo.providers (inr Demo.one_hit) Demo.plain_reply)
                         (Studio.edge Studio.spoken (inl (ProviderError "audio too short")))
                         (inr "RIFF0000WAVE") Studio.empty_server))
           "RIFF0000WAVE" (ProviderError "audio too short") _ eq_refl eq_refl).
Defined.

(** X20.  [GET /documents] never answers with an HTTP error: it returns
    the listing of [rag_service.list_documents], which is empty when the
    index call fails, and changes neither the collection nor the files. *)
Theorem documents_endpoint_never_fails
    (collection_get : list IndexRecord → Exn + list Metadata) (s : Server) :
  ∃ entries s',
    Main.list_documents collection_get s = (inr entries, s')
    ∧ fst (list_documents collection_get (rag s)) = inr entries
    ∧ collection (rag s') = collection (rag s)
    ∧ files s' = files s
    ∧ ∀ e, collection_get (collection (rag s)) = inl e → entries = [].
Proof.
  unfold Main.list_documents, Main.or_500, mbind, srv_bind, lift.
  unfold list_documents, try_except, mbind, py_bind, collection_get_call, print, call.
  destruct (collection_get (collection (rag s))) as [e|metas]; cbn;
    eexists _, _; (split; [reflexivity|]); repeat split; try done;
    by intros ? [=].
Qed.



